(** * The function-calling round trip of [code/02_functions_calling.ipynb]

    A shallow embedding of the notebook's code cells.  The cells run in
    the kernel's top-level namespace; they share one list object (the
    conversation history) under two names, look the requested tool up in
    that very namespace ([locals()] at top level), and let every exception
    propagate.  The embedding therefore has

    - Python data as a tree type [pyval] (dicts keep insertion order),
    - a namespace [gmap string object] and a heap of list objects, so that
      [chat_history = messages] is an alias and not a copy,
    - a state-and-exception monad [M]: a raising cell keeps the mutations
      it had performed,
    - the answers of the hosted model as arguments of the cells that await
      them, and the requests sent to it as a log in the state,
    - the library code the cells call ([json.loads], the SDK's [to_json],
      the builtin [str]) as parameters of the cells,
    - the names the kernel binds when it shows the value of a cell that
      ends in an expression ([_], [__], [___], [_N]) as a parameter too:
      which of them it binds, and to what, is the kernel's business.

    What is written to standard output is not part of the state; a [print]
    is modelled only through the exceptions its argument can raise.  The
    kernel's record of the inputs is not modelled either: no cell reads
    it, and its names ([In], [_i], [_iN]) are among those the properties
    leave to the kernel. *)

From Stdlib Require Import ZArith Ascii String List Bool Arith Lia.
From stdpp Require Import base option list strings pretty gmap.

Open Scope string_scope.
Open Scope list_scope.

(** ** Python data *)

(** Values built by the notebook and by [json.loads].  A dict is a list of
    bindings in insertion order; its keys are strings, as in JSON.  A float
    is kept as its [repr]: the notebook performs no arithmetic. *)
#[warnings="-register-all"]
Inductive pyval : Type :=
| PNone
| PBool (b : bool)
| PInt (z : Z)
| PFloat (lexeme : string)
| PStr (s : string)
| PList (l : list pyval)
| PDict (d : list (string * pyval)).

Abbreviation kwargs := (list (string * pyval)).

(** [d[k]] read-only, and [k in d]. *)
Fixpoint dict_get (k : string) (d : kwargs) : option pyval :=
  match d with
  | [] => None
  | (k', v) :: d' => if String.eqb k k' then Some v else dict_get k d'
  end.

Definition dict_has (k : string) (d : kwargs) : bool :=
  match dict_get k d with Some _ => true | None => false end.

(** [d[k] = v]: an existing key keeps its place. *)
Fixpoint dict_set (k : string) (v : pyval) (d : kwargs) : kwargs :=
  match d with
  | [] => [(k, v)]
  | (k', v') :: d' =>
      if String.eqb k k' then (k, v) :: d' else (k', v') :: dict_set k v d'
  end.

Definition keys (d : kwargs) : list string := map fst d.

(** ** Characters and joining *)

Definition dq : ascii := "034"%char.
Definition sq : ascii := "039"%char.
Definition bs : ascii := "092"%char.

Fixpoint contains (c : ascii) (s : string) : bool :=
  match s with
  | EmptyString => false
  | String c' s' => Ascii.eqb c c' || contains c s'
  end.

Definition hex_digit (n : N) : ascii :=
  ascii_of_N (if (n <? 10)%N then 48 + n else 87 + n).

Fixpoint join (sep : string) (l : list string) : string :=
  match l with
  | [] => EmptyString
  | [x] => x
  | x :: l' => x +:+ sep +:+ join sep l'
  end.

(** ** The notebook's two functions *)

(** [def message(role, content)] *)
Definition message (role content : pyval) : pyval :=
  PDict [("role", role);
         ("content", PList [PDict [("type", PStr "text"); ("text", content)]])].

(** [def get_weather(location)] *)
Definition get_weather (location : pyval) : pyval :=
  PDict [("temperature", PInt 25); ("condition", PStr "sunny")].

(** The keyword call [f( **kw )] of a function whose parameters are
    [params], none with a default: every parameter is given, nothing else
    is.  The values come back in parameter order. *)
Definition bind_params (params : list string) (kw : kwargs) : option (list pyval) :=
  if forallb (fun k => existsb (String.eqb k) params) (keys kw)
  then mapM (fun p => dict_get p kw) params
  else None.

(** ** Exceptions, objects, state *)

Inductive exn : Type :=
| JSONDecodeError
| KeyError (key : string)
| NameError (name : string)
| TypeError
| AttributeError
| IndexError
| APIError
| Raised (cls : string).

(** The objects of the SDK's answer: [ChatCompletion], its choices, the
    message of a choice and the tool calls of a message. *)
Record Function : Type := { fn_arguments : string; fn_name : string }.
Record ToolCall : Type :=
  { tc_id : string; tc_function : Function; tc_type : string }.
Record ChatCompletionMessage : Type :=
  { msg_content : option string;
    msg_refusal : option string;
    msg_role : string;
    msg_tool_calls : option (list ToolCall) }.
Record Choice : Type :=
  { finish_reason : string; choice_message : ChatCompletionMessage }.
Record ChatCompletion : Type := { choices : list Choice }.

Abbreviation loc := nat.

(** What a name of the kernel's namespace can be bound to.  A list bound
    to a name is a heap object ([OList]), so [OData] never holds a
    top-level list.  A callable is called with keyword arguments only, as
    the dispatch does, and returns or raises. *)
Inductive object : Type :=
| OData (v : pyval)
| OList (l : loc)
| OFun (f : kwargs -> exn + pyval)
| OCompletion (c : ChatCompletion)
| OToolCalls (tcs : list ToolCall)
| OToolCall (tc : ToolCall).

(** A request of [client.chat.completions.create]. *)
Record request : Type :=
  { rq_model : string; rq_messages : list pyval; rq_tools : option (list pyval) }.

Record state : Type :=
  { ns : gmap string object;
    heap : list (list pyval);
    sent : list request }.

Definition set_ns (f : gmap string object -> gmap string object) (s : state) : state :=
  {| ns := f (ns s); heap := heap s; sent := sent s |}.
Definition set_heap (f : list (list pyval) -> list (list pyval)) (s : state) : state :=
  {| ns := ns s; heap := f (heap s); sent := sent s |}.
Definition set_sent (f : list request -> list request) (s : state) : state :=
  {| ns := ns s; heap := heap s; sent := f (sent s) |}.

(** The list a name refers to, if it refers to one. *)
Definition deref (x : string) (s : state) : option (list pyval) :=
  match ns s !! x with
  | Some (OList l) => heap s !! l
  | _ => None
  end.

(** ** The monad of cells: state, and exceptions that keep the state *)

Definition M (A : Type) : Type := state -> (exn + A) * state.

Definition ret {A} (a : A) : M A := fun s => (inr a, s).
Definition raise {A} (e : exn) : M A := fun s => (inl e, s).
Definition bind {A B} (m : M A) (k : A -> M B) : M B :=
  fun s => match m s with
           | (inr a, s') => k a s'
           | (inl e, s') => (inl e, s')
           end.

Notation "x <- m ;; k" := (bind m (fun x => k))
  (at level 100, m at next level, k at level 200, right associativity).
Notation "m >> k" := (bind m (fun _ => k))
  (at level 100, k at level 200, right associativity).

Definition lift {A} (r : exn + A) : M A :=
  match r with inr a => ret a | inl e => raise e end.

Definition or_raise {A} (e : exn) (o : option A) : M A :=
  match o with Some a => ret a | None => raise e end.

(** [for x in items: body(x)] *)
Fixpoint for_each {A} (items : list A) (body : A -> M unit) : M unit :=
  match items with
  | [] => ret tt
  | x :: rest => body x >> for_each rest body
  end.

(** Reading and binding a name. *)
Definition load (x : string) : M object :=
  fun s => or_raise (NameError x) (ns s !! x) s.

Definition assign (x : string) (o : object) : M unit :=
  fun s => (inr tt, set_ns (insert x o) s).

(** A list literal: a new heap object. *)
Definition alloc (l : list pyval) : M object :=
  fun s => (inr (OList (length (heap s))), set_heap (fun h => h ++ [l]) s).

(** Binding a name to a value just produced: a list becomes an object of
    its own. *)
Definition assign_value (x : string) (v : pyval) : M unit :=
  match v with
  | PList l => o <- alloc l ;; assign x o
  | _ => assign x (OData v)
  end.

(** [x.append(v)]: only list objects have the method. *)
Definition append (x : string) (v : pyval) : M unit :=
  o <- load x ;;
  match o with
  | OList l => fun s => (inr tt, set_heap (alter (fun h => h ++ [v]) l) s)
  | _ => raise AttributeError
  end.

(** [locals()[key]] at top level: a plain dict lookup in the namespace. *)
Definition locals_lookup (key : string) : M object :=
  fun s => or_raise (KeyError key) (ns s !! key) s.

(** [f( **args )]: the argument after [**] must be a mapping, and [f]
    callable. *)
Definition call (f : object) (args : pyval) : M pyval :=
  match args with
  | PDict kw =>
      match f with
      | OFun g => lift (g kw)
      | _ => raise TypeError
      end
  | _ => raise TypeError
  end.

(** The two functions as objects of the namespace: called by keyword. *)
Definition message_kw (kw : kwargs) : exn + pyval :=
  match bind_params ["role"; "content"] kw with
  | Some [role; content] => inr (message role content)
  | _ => inl TypeError
  end.

Definition get_weather_kw (kw : kwargs) : exn + pyval :=
  match bind_params ["location"] kw with
  | Some [location] => inr (get_weather location)
  | _ => inl TypeError
  end.

Definition message_obj : object := OFun message_kw.
Definition get_weather_obj : object := OFun get_weather_kw.

(** ** [str] on plain data

    The builtin [str] is library code; the cells below take it as a
    parameter, and it may raise.  The function of this module is one
    instance, used to run the cells on the notebook's recorded exchange.
    It is Python's [str] on data whose text is ASCII or printable, and
    whose integers stay below the interpreter's limit on the digits of a
    conversion; it is not beyond that (Python escapes the characters
    that are not printable, this function keeps every byte from 128 on,
    and it never raises). *)
Module Py.

(** One character of a string inside the quotes [q] of its [repr]. *)
Definition repr_char (q c : ascii) : string :=
  let n := N_of_ascii c in
  if Ascii.eqb c bs then String bs (String bs EmptyString)
  else if Ascii.eqb c q then String bs (String q EmptyString)
  else if (n =? 10)%N then String bs "n"
  else if (n =? 13)%N then String bs "r"
  else if (n =? 9)%N then String bs "t"
  else if ((n <? 32) || (n =? 127))%N
       then String bs (String "x" (String (hex_digit (n / 16))
                                     (String (hex_digit (n mod 16)) EmptyString)))
  else String c EmptyString.

Fixpoint repr_chars (q : ascii) (s : string) : string :=
  match s with
  | EmptyString => EmptyString
  | String c s' => repr_char q c +:+ repr_chars q s'
  end.

(** [repr] of a [str]: single quotes, unless the text has a single quote
    and no double quote. *)
Definition repr_str (s : string) : string :=
  let q := if contains sq s && negb (contains dq s) then dq else sq in
  String q (repr_chars q s +:+ String q EmptyString).

Fixpoint repr (v : pyval) : string :=
  match v with
  | PNone => "None"
  | PBool true => "True"
  | PBool false => "False"
  | PInt z => pretty z
  | PFloat r => r
  | PStr s => repr_str s
  | PList l => "[" +:+ join ", " (map repr l) +:+ "]"
  | PDict d =>
      "{" +:+ join ", " (map (fun '(k, x) => repr_str k +:+ ": " +:+ repr x) d)
          +:+ "}"
  end.

(** A string is its own text, anything else prints as its repr. *)
Definition text (v : pyval) : string :=
  match v with
  | PStr s => s
  | _ => repr v
  end.

Definition str (v : pyval) : exn + string := inr (text v).

End Py.

(** ** A JSON codec

    [json.loads] and the SDK's [to_json] are library code; the cells below
    take them as parameters.  The codec of this module is one instance,
    used to run the cells on the notebook's recorded exchange.  It decodes
    the JSON texts without fraction or exponent numbers and without
    [\u] escapes beyond ASCII, and answers [None] (a decoding error) on
    anything else; it writes compact JSON. *)
Module Json.

Definition is_ws (c : ascii) : bool :=
  let n := N_of_ascii c in
  ((n =? 32) || (n =? 9) || (n =? 10) || (n =? 13))%N.

Definition is_digit (c : ascii) : bool :=
  let n := N_of_ascii c in ((48 <=? n) && (n <=? 57))%N.

Fixpoint skip_ws (s : string) : string :=
  match s with
  | String c s' => if is_ws c then skip_ws s' else s
  | EmptyString => s
  end.

(** [s] without its prefix [p]. *)
Fixpoint strip (p s : string) : option string :=
  match p, s with
  | EmptyString, _ => Some s
  | String a p', String b s' => if Ascii.eqb a b then strip p' s' else None
  | _, EmptyString => None
  end.

Definition hex_val (c : ascii) : option N :=
  let n := N_of_ascii c in
  if ((48 <=? n) && (n <=? 57))%N then Some (n - 48)%N
  else if ((97 <=? n) && (n <=? 102))%N then Some (n - 87)%N
  else if ((65 <=? n) && (n <=? 70))%N then Some (n - 55)%N
  else None.

(** The text of a string literal after its opening quote, and the rest. *)
Fixpoint string_body (s : string) : option (string * string) :=
  match s with
  | EmptyString => None
  | String c s' =>
      if Ascii.eqb c dq then Some (EmptyString, s')
      else if Ascii.eqb c bs then
        match s' with
        | String e s'' =>
            let plain (x : ascii) :=
              '(t, r) ← string_body s''; Some (String x t, r) in
            if Ascii.eqb e dq then plain dq
            else if Ascii.eqb e bs then plain bs
            else if Ascii.eqb e "/" then plain "/"%char
            else if Ascii.eqb e "b" then plain "008"%char
            else if Ascii.eqb e "f" then plain "012"%char
            else if Ascii.eqb e "n" then plain "010"%char
            else if Ascii.eqb e "r" then plain "013"%char
            else if Ascii.eqb e "t" then plain "009"%char
            else if Ascii.eqb e "u" then
              match s'' with
              | String h1 (String h2 (String h3 (String h4 s3))) =>
                  a ← hex_val h1; b ← hex_val h2; c3 ← hex_val h3; d ← hex_val h4;
                  let n := (((a * 16 + b) * 16 + c3) * 16 + d)%N in
                  if (n <? 128)%N
                  then '(t, r) ← string_body s3; Some (String (ascii_of_N n) t, r)
                  else None
              | _ => None
              end
            else None
        | EmptyString => None
        end
      else if (N_of_ascii c <? 32)%N then None
      else '(t, r) ← string_body s'; Some (String c t, r)
  end.

Fixpoint digits (acc : N) (s : string) : N * string :=
  match s with
  | String c s' =>
      if is_digit c then digits (acc * 10 + (N_of_ascii c - 48)) s' else (acc, s)
  | EmptyString => (acc, s)
  end.

(** An integer literal: no leading zero, no fraction, no exponent. *)
Definition natural (s : string) : option (N * string) :=
  match s with
  | String c s' =>
      if negb (is_digit c) then None
      else
        let '(n, r) := if Ascii.eqb c "0" then (0%N, s') else digits 0 s in
        match r with
        | String d _ =>
            if is_digit d || Ascii.eqb d "." || Ascii.eqb d "e" || Ascii.eqb d "E"
            then None else Some (n, r)
        | EmptyString => Some (n, r)
        end
  | EmptyString => None
  end.

(** One value, without the blanks around it.  [members] and [elements]
    read what follows the opening bracket. *)
Fixpoint value (fuel : nat) (s : string) : option (pyval * string) :=
  match fuel with
  | O => None
  | S fuel =>
      let fix elements (n : nat) (s : string) : option (list pyval * string) :=
        match n with
        | O => None
        | S n =>
            '(v, r) ← value fuel (skip_ws s);
            match skip_ws r with
            | String "," r' => '(vs, r'') ← elements n r'; Some (v :: vs, r'')
            | String "]" r' => Some ([v], r')
            | _ => None
            end
        end in
      let fix members (n : nat) (s : string) : option (kwargs * string) :=
        match n with
        | O => None
        | S n =>
            match skip_ws s with
            | String q r0 =>
                if Ascii.eqb q dq then
                  '(k, r1) ← string_body r0;
                  match skip_ws r1 with
                  | String ":" r2 =>
                      '(v, r3) ← value fuel (skip_ws r2);
                      match skip_ws r3 with
                      | String "," r4 =>
                          '(kvs, r5) ← members n r4; Some ((k, v) :: kvs, r5)
                      | String "}" r4 => Some ([(k, v)], r4)
                      | _ => None
                      end
                  | _ => None
                  end
                else None
            | EmptyString => None
            end
        end in
      match s with
      | String "{" r =>
          match skip_ws r with
          | String "}" r' => Some (PDict [], r')
          | _ => '(kvs, r') ← members fuel r;
                 Some (PDict (fold_left (fun d '(k, v) => dict_set k v d) kvs []), r')
          end
      | String "[" r =>
          match skip_ws r with
          | String "]" r' => Some (PList [], r')
          | _ => '(vs, r') ← elements fuel r; Some (PList vs, r')
          end
      | String "-" r => '(n, r') ← natural r; Some (PInt (- Z.of_N n), r')
      | String c r =>
          if Ascii.eqb c dq then '(t, r') ← string_body r; Some (PStr t, r')
          else if is_digit c then '(n, r') ← natural s; Some (PInt (Z.of_N n), r')
          else match strip "true" s, strip "false" s, strip "null" s with
               | Some r', _, _ => Some (PBool true, r')
               | _, Some r', _ => Some (PBool false, r')
               | _, _, Some r' => Some (PNone, r')
               | _, _, _ => None
               end
      | EmptyString => None
      end
  end.

(** A whole document: one value, blanks around it, nothing after. *)
Definition loads (s : string) : option pyval :=
  match value (S (String.length s)) (skip_ws s) with
  | Some (v, r) => match skip_ws r with EmptyString => Some v | _ => None end
  | None => None
  end.

(** Writing: a string literal, then the SDK objects of an answer. *)
Definition quote_char (c : ascii) : string :=
  let n := N_of_ascii c in
  if Ascii.eqb c dq then String bs (String dq EmptyString)
  else if Ascii.eqb c bs then String bs (String bs EmptyString)
  else if (n =? 10)%N then String bs "n"
  else if (n =? 13)%N then String bs "r"
  else if (n =? 9)%N then String bs "t"
  else if (n <? 32)%N
       then String bs ("u00" +:+ String (hex_digit (n / 16))
                                   (String (hex_digit (n mod 16)) EmptyString))
  else String c EmptyString.

Fixpoint quote_chars (s : string) : string :=
  match s with
  | EmptyString => EmptyString
  | String c s' => quote_char c +:+ quote_chars s'
  end.

Definition quote (s : string) : string :=
  String dq (quote_chars s +:+ String dq EmptyString).

Definition member (k v : string) : string := quote k +:+ ":" +:+ v.

Definition opt_text (o : option string) : string :=
  match o with Some t => quote t | None => "null" end.

Definition tool_call_to_json (tc : ToolCall) : string :=
  "{" +:+ member "id" (quote (tc_id tc)) +:+ ","
      +:+ member "function"
            ("{" +:+ member "arguments" (quote (fn_arguments (tc_function tc)))
                 +:+ "," +:+ member "name" (quote (fn_name (tc_function tc)))
                 +:+ "}")
      +:+ "," +:+ member "type" (quote (tc_type tc)) +:+ "}".

(** The fields the notebook's recorded outputs show; [tool_calls] only
    when the answer has it. *)
Definition to_json (m : ChatCompletionMessage) : string :=
  "{" +:+ member "content" (opt_text (msg_content m)) +:+ ","
      +:+ member "refusal" (opt_text (msg_refusal m)) +:+ ","
      +:+ member "role" (quote (msg_role m))
      +:+ match msg_tool_calls m with
          | Some tcs =>
              "," +:+ member "tool_calls"
                        ("[" +:+ join "," (map tool_call_to_json tcs) +:+ "]")
          | None => EmptyString
          end
      +:+ "}".

End Json.

(** ** The cells *)

(** [get_weather_function_definition] *)
Definition get_weather_function_definition : pyval :=
  PDict
    [("type", PStr "function");
     ("function",
      PDict
        [("name", PStr "get_weather");
         ("description", PStr "Get the current weather in a given city");
         ("parameters",
          PDict
            [("type", PStr "object");
             ("properties",
              PDict
                [("location",
                  PDict
                    [("type", PStr "string");
                     ("description",
                      PStr "The name of the location to get the weather for")])]);
             ("required", PList [PStr "location"]);
             ("additionalProperties", PBool false)])]);
     ("strict", PBool true)].

(** The dict the tool loop appends for a call,
    [function_call_results_message]; [content] is the text
    [str(function_call_results)] gave. *)
Definition tool_message (tool_call_id content : string) : pyval :=
  PDict [("role", PStr "tool");
         ("type", PStr "function_call_output");
         ("tool_call_id", PStr tool_call_id);
         ("content", PStr content)].

(** [x.append]: the bound method, that is the list object it will extend. *)
Definition get_append (x : string) : M loc :=
  o <- load x ;;
  match o with
  | OList l => ret l
  | _ => raise AttributeError
  end.

Definition do_append (l : loc) (v : pyval) : M unit :=
  fun s => (inr tt, set_heap (alter (fun h => h ++ [v]) l) s).

(** [x.choices[0]] for the name [x]. *)
Definition first_choice (x : string) : M Choice :=
  o <- load x ;;
  match o with
  | OCompletion c =>
      match choices c with
      | ch :: _ => ret ch
      | [] => raise IndexError
      end
  | _ => raise AttributeError
  end.

(** The elements a [for] loop draws from an object.  The SDK's answer
    objects are not looped over by the notebook and count as not iterable
    here. *)
Definition iterate (o : object) : M (list object) :=
  match o with
  | OToolCalls tcs => ret (map OToolCall tcs)
  | OList l => fun s => (inr (map OData (default [] (heap s !! l))), s)
  | OData (PList l) => ret (map OData l)
  | OData (PStr t) =>
      ret (map (fun c => OData (PStr (String c EmptyString))) (list_ascii_of_string t))
  | OData (PDict d) => ret (map (fun k => OData (PStr k)) (keys d))
  | _ => raise TypeError
  end.

(** [await client.chat.completions.create(model=.., messages=<name>,
    tools=<name>)]: the request is sent with the lists as they are now; the
    hosted model answers, or the call raises.  Anything but lists in the
    request is refused by the call. *)
Definition create (messages : string) (tools : option string)
    (answer : exn + ChatCompletion) : M ChatCompletion :=
  m <- load messages ;;
  t <- match tools with
       | Some x => o <- load x ;; ret (Some o)
       | None => ret None
       end ;;
  fun s =>
    match m, t with
    | OList lm, None =>
        lift answer
          (set_sent (fun q => q ++ [{| rq_model := "gpt-4o-mini";
                                       rq_messages := default [] (heap s !! lm);
                                       rq_tools := None |}]) s)
    | OList lm, Some (OList lt) =>
        lift answer
          (set_sent (fun q => q ++ [{| rq_model := "gpt-4o-mini";
                                       rq_messages := default [] (heap s !! lm);
                                       rq_tools := Some (default [] (heap s !! lt)) |}]) s)
    | _, _ => (inl APIError, s)
    end.

(** The list literal of the cell that binds [messages]. *)
Definition initial_messages : list pyval :=
  [message (PStr "developer") (PStr "you are a helpful assistant");
   message (PStr "user") (PStr "How is the weather in Sydney today?")].

(** The user turn of the last cell. *)
Definition new_user_turn : pyval :=
  message (PStr "user") (PStr "what again in Arabic please?").

(** The names of the interactive shell: those that begin with an
    underscore (the outputs [_], [__], [___] and [_N], the inputs [_i],
    [_ii], [_iii] and [_iN], its own tables), and its caches [In] and
    [Out]. *)
Definition kernel_name (x : string) : bool :=
  String.eqb x "In" || String.eqb x "Out"
  || match x with
     | String c _ => Ascii.eqb c "_"
     | EmptyString => false
     end.

(** The elements of a list object, as they are now. *)
Definition contents (l : loc) : M (list pyval) :=
  fun s => (inr (default [] (heap s !! l)), s).

(** The kernel binds names of its own in the namespace [m]. *)
Definition pushed (bindings m : gmap string object) : gmap string object :=
  filter (fun kv => kernel_name (fst kv) = true) bindings ∪ m.

Definition push (bindings : gmap string object) : M unit :=
  fun s => (inr tt, set_ns (pushed bindings) s).

Section Cells.

(** [json.loads]: [None] is a [JSONDecodeError]. *)
Variable json_loads : string -> option pyval.
(** The SDK's [message.to_json()]. *)
Variable to_json : ChatCompletionMessage -> string.
(** The builtin [str] on data: the text, or the exception it raises. *)
Variable str : pyval -> exn + string.
(** The names the kernel binds, and what it binds them to, when it shows
    the value of the cell with execution count [N]: [_], [__], [___] and
    [_N], as far as the user has not taken them over, and the entry [N] of
    [Out].  Whatever is given here, only names of the kernel are bound. *)
Variable display_hook : nat -> gmap string object.

(** A cell that ends in an expression: the kernel shows its value. *)
Definition display (N : nat) : M unit := push (display_hook N).

(** [str(x)] for the object a name is bound to.  The SDK's objects and
    the functions have a text of their own, which is not modelled; [str]
    returns on them. *)
Definition str_of (o : object) : M unit :=
  match o with
  | OData v => _ <- lift (str v) ;; ret tt
  | OList l => h <- contents l ;; _ <- lift (str (PList h)) ;; ret tt
  | _ => ret tt
  end.

Definition loads_or_raise (text : string) : M pyval :=
  or_raise JSONDecodeError (json_loads text).

(** [def message(role, content)].  The cells that call [message] run
    after this one and nothing rebinds the name, so they are given the
    function itself. *)
Definition cell_def_message : M unit := assign "message" message_obj.

(** [messages = [message(..), message(..)]] *)
Definition cell_messages : M unit :=
  o <- alloc initial_messages ;;
  assign "messages" o.

(** The standard call, without tools. *)
Definition cell_baseline (answer : exn + ChatCompletion) : M unit :=
  c <- create "messages" None answer ;;
  assign "completion" (OCompletion c) >>
  _ <- first_choice "completion" ;;
  ret tt.

(** [get_weather_function_definition = {..}; tools = [..]] *)
Definition cell_def_tools : M unit :=
  assign "get_weather_function_definition" (OData get_weather_function_definition) >>
  o <- alloc [get_weather_function_definition] ;;
  assign "tools" o.

(** [def get_weather(location)] *)
Definition cell_def_get_weather : M unit := assign "get_weather" get_weather_obj.

(** 1. [chat_history = messages], then the call with tools. *)
Definition cell_send (answer : exn + ChatCompletion) : M unit :=
  o <- load "messages" ;;
  assign "chat_history" o >>
  c <- create "chat_history" (Some "tools") answer ;;
  assign "completion" (OCompletion c).

(** 2. [print(completion.choices[0].message.to_json())] *)
Definition cell_print_completion : M unit :=
  _ <- first_choice "completion" ;; ret tt.

(** [chat_history.append(json.loads(<x>.choices[0].message.to_json()))] *)
Definition append_answer (x : string) : M unit :=
  l <- get_append "chat_history" ;;
  ch <- first_choice x ;;
  v <- loads_or_raise (to_json (choice_message ch)) ;;
  do_append l v.

(** The cell ends in the expression [chat_history]: output 19 of the
    recorded run. *)
Definition cell_record_call : M unit :=
  append_answer "completion" >>
  _ <- load "chat_history" ;;
  display 19.

(** 3. [finish_reason = ..; tool_calls = ..; print(tool_calls[0].to_json())] *)
Definition cell_inspect : M unit :=
  ch <- first_choice "completion" ;;
  assign "finish_reason" (OData (PStr (finish_reason ch))) >>
  ch' <- first_choice "completion" ;;
  match msg_tool_calls (choice_message ch') with
  | None => assign "tool_calls" (OData PNone) >> raise TypeError
  | Some [] => assign "tool_calls" (OToolCalls []) >> raise IndexError
  | Some tcs => assign "tool_calls" (OToolCalls tcs)
  end.

(** The body of [for tool in tool_calls:]. *)
Definition loop_body (tool : object) : M unit :=
  assign "tool" tool >>
  tc <- match tool with
        | OToolCall tc => ret tc
        | _ => raise AttributeError
        end ;;
  let function_name := fn_name (tc_function tc) in
  assign "function_name" (OData (PStr function_name)) >>
  function_args <- loads_or_raise (fn_arguments (tc_function tc)) ;;
  assign_value "function_args" function_args >>
  let tool_call_id := tc_id tc in
  assign "tool_call_id" (OData (PStr tool_call_id)) >>
  f <- locals_lookup function_name ;;
  function_call_results <- call f function_args ;;
  assign_value "function_call_results" function_call_results >>
  (* [print(function_call_results)] converts with [str], as the message
     then does again *)
  content <- lift (str function_call_results) ;;
  let function_call_results_message := tool_message tool_call_id content in
  assign "function_call_results_message" (OData function_call_results_message) >>
  append "chat_history" function_call_results_message.

Definition cell_tool_loop : M unit :=
  o <- load "tool_calls" ;;
  items <- iterate o ;;
  for_each items loop_body.

(** The two cells [str(function_call_results)] and [chat_history]:
    outputs 22 and 23 of the recorded run. *)
Definition cell_show : M unit :=
  o <- load "function_call_results" ;;
  str_of o >>
  display 22 >>
  _ <- load "chat_history" ;;
  display 23.

(** 4. The history goes back to the model. *)
Definition cell_resend (answer : exn + ChatCompletion) : M unit :=
  c <- create "chat_history" (Some "tools") answer ;;
  assign "response_2" (OCompletion c).

(** 5. [print(response_2.choices[0].message.content)], then its JSON. *)
Definition cell_print_final : M unit :=
  _ <- first_choice "response_2" ;;
  _ <- first_choice "response_2" ;;
  ret tt.

(** 6. The final answer and a new user turn are appended, and sent. *)
Definition cell_continue (answer : exn + ChatCompletion) : M unit :=
  append_answer "response_2" >>
  append "chat_history" new_user_turn >>
  c <- create "chat_history" (Some "tools") answer ;;
  assign "response_3" (OCompletion c) >>
  _ <- first_choice "response_3" ;;
  ret tt.

(** The cells of the round trip, steps 1 to 6. *)
Definition round_trip (a1 a2 a3 : exn + ChatCompletion) : M unit :=
  cell_send a1 >> cell_print_completion >> cell_record_call >>
  cell_inspect >> cell_tool_loop >> cell_show >>
  cell_resend a2 >> cell_print_final >> cell_continue a3.

(** The cells before the round trip, from [def message] on. *)
Definition setup (a0 : exn + ChatCompletion) : M unit :=
  cell_def_message >> cell_messages >> cell_baseline a0 >>
  cell_def_tools >> cell_def_get_weather.

(** The code cells from [def message] on, top to bottom. *)
Definition notebook (a0 a1 a2 a3 : exn + ChatCompletion) : M unit :=
  setup a0 >> round_trip a1 a2 a3.

End Cells.

(** ** The recorded exchange

    The answers the notebook's outputs show, and a kernel that has run
    nothing yet. *)
Module Recorded.

Definition call_1 : ToolCall :=
  {| tc_id := "call_A0GbXBeZGkAR1ooDoMKQCPcs";
     tc_function :=
       {| fn_arguments := "{" +:+ Json.member "location" (Json.quote "Sydney") +:+ "}";
          fn_name := "get_weather" |};
     tc_type := "function" |}.

Definition text_choice (t : string) : Choice :=
  {| finish_reason := "stop";
     choice_message :=
       {| msg_content := Some t; msg_refusal := None;
          msg_role := "assistant"; msg_tool_calls := None |} |}.

Definition tool_choice (tcs : list ToolCall) : Choice :=
  {| finish_reason := "tool_calls";
     choice_message :=
       {| msg_content := None; msg_refusal := None;
          msg_role := "assistant"; msg_tool_calls := Some tcs |} |}.

Definition text_answer (t : string) : exn + ChatCompletion :=
  inr {| choices := [text_choice t] |}.

Definition tool_answer (tcs : list ToolCall) : exn + ChatCompletion :=
  inr {| choices := [tool_choice tcs] |}.

Definition answer_0 : exn + ChatCompletion :=
  text_answer "I'm unable to provide real-time weather updates. I recommend checking a reliable weather website or using a weather app for the most current information on Sydney's weather.".
Definition answer_1 : exn + ChatCompletion := tool_answer [call_1].
Definition answer_2 : exn + ChatCompletion :=
  text_answer "The weather in Sydney today is sunny with a temperature of 25°C.".
Definition answer_3 : exn + ChatCompletion :=
  text_answer "الطقس في سيدني اليوم مشمس ودرجة الحرارة 25°C.".

Definition kernel : state := {| ns := ∅; heap := []; sent := [] |}.

(** What the tool returns on the recorded call, as text. *)
Definition weather : string := "{'temperature': 25, 'condition': 'sunny'}".

(** The names bound for the three outputs of the recorded run: the
    history, a list object, is shown twice, the text of the result
    once. *)
Definition hook (N : nat) : gmap string object :=
  let shown := if (N =? 22)%nat then OData (PStr weather) else OList 0 in
  <["_" := shown]> (<[String "_" (pretty N) := shown]> ∅).

Definition run : (exn + unit) * state :=
  notebook Json.loads Json.to_json Py.str hook
    answer_0 answer_1 answer_2 answer_3 kernel.

(** A request for a function the notebook does not define, and one
    whose arguments are not JSON. *)
Definition unknown_call : ToolCall :=
  {| tc_id := "call_2";
     tc_function :=
       {| fn_arguments := "{" +:+ Json.member "city" (Json.quote "Sydney") +:+ "}";
          fn_name := "get_time" |};
     tc_type := "function" |}.

Definition malformed_call : ToolCall :=
  {| tc_id := "call_3";
     tc_function := {| fn_arguments := "{location: Sydney"; fn_name := "get_weather" |};
     tc_type := "function" |}.

(** The kernel after the cells before the round trip, after step 1, and
    when the tool loop starts on the requests [tcs]. *)
Definition after_setup : state := snd (setup answer_0 kernel).

Definition after_send_of (tcs : list ToolCall) : state :=
  snd (cell_send (tool_answer tcs) after_setup).

Definition before_loop_of (tcs : list ToolCall) : state :=
  snd ((cell_print_completion >> cell_record_call Json.loads Json.to_json hook >>
        cell_inspect) (after_send_of tcs)).

Definition after_send : state := after_send_of [call_1].
Definition before_loop : state := before_loop_of [call_1].

(** The loop, once it has answered [call_1]. *)
Definition after_first_call (tcs : list ToolCall) : state :=
  snd (loop_body Json.loads Py.str (OToolCall call_1) (before_loop_of tcs)).

(** A tool call, and the model's tool-call message, as the history
    records them. *)
Definition recorded_call (tc : ToolCall) : pyval :=
  PDict [("id", PStr (tc_id tc));
         ("function",
          PDict [("arguments", PStr (fn_arguments (tc_function tc)));
                 ("name", PStr (fn_name (tc_function tc)))]);
         ("type", PStr "function")].

Definition recorded_calls (tcs : list ToolCall) : pyval :=
  PDict [("content", PNone); ("refusal", PNone); ("role", PStr "assistant");
         ("tool_calls", PList (map recorded_call tcs))].

End Recorded.

(** ** Vocabulary of the properties *)

(** The conversation history: the list [chat_history] names. *)
Definition history (s : state) : option (list pyval) := deref "chat_history" s.

(** The names the tool loop binds in an iteration before it dispatches. *)
Definition bound_before_dispatch : list string :=
  ["tool"; "function_name"; "function_args"; "tool_call_id"].

(** The names bound by the inspection cell and by the tool loop. *)
Definition scratch_names : list string :=
  ["finish_reason"; "tool_calls"] ++ bound_before_dispatch
    ++ ["function_call_results"; "function_call_results_message"].

Definition field (k : string) (m : pyval) : option pyval :=
  match m with
  | PDict d => dict_get k d
  | _ => None
  end.

(** [m] is a dict whose keys are exactly [ks], in any order. *)
Definition same_keys (ks : list string) (m : pyval) : bool :=
  match m with
  | PDict d =>
      (length (keys d) =? length ks)%nat
      && forallb (fun k => existsb (String.eqb k) ks) (keys d)
      && forallb (fun k => existsb (String.eqb k) (keys d)) ks
  | _ => false
  end.

Definition is_text (v : pyval) : bool :=
  match v with PStr _ => true | _ => false end.


(** A tool message that answers the request [i]. *)
Definition answers (i : string) (m : pyval) : bool :=
  match field "role" m, field "tool_call_id" m with
  | Some (PStr r), Some (PStr j) => String.eqb r "tool" && String.eqb j i
  | _, _ => false
  end.

Definition count_answers (i : string) (ms : list pyval) : nat :=
  length (filter (fun m => answers i m = true) ms).

Definition count_requests (i : string) (tcs : list ToolCall) : nat :=
  length (filter (fun tc => tc_id tc = i) tcs).

(** One tool message per request, in the order of the requests. *)
Definition answered (tcs : list ToolCall) (ms : list pyval) : Prop :=
  Forall2 (fun tc m => exists r, m = tool_message (tc_id tc) r) tcs ms.

(** The shape the specification gives a tool result message:
    [{role: "tool", tool_call_id, content}] and no other key. *)
Definition spec_tool_result_shape (i : string) (m : pyval) : bool :=
  same_keys ["role"; "tool_call_id"; "content"] m
  && answers i m
  && match field "content" m with Some c => is_text c | None => false end.

(** The shape the loop builds: the same with the key [type]. *)
Definition tool_result_shape (i : string) (m : pyval) : bool :=
  same_keys ["role"; "type"; "tool_call_id"; "content"] m
  && answers i m
  && match field "type" m with
     | Some (PStr t) => String.eqb t "function_call_output"
     | _ => false
     end
  && match field "content" m with Some c => is_text c | None => false end.





(** The namespace in which the iteration for [tc] dispatches: the loop has
    bound its four names by then. *)
Definition namespace_at_dispatch (tc : ToolCall) (function_args : object)
    (m : gmap string object) : gmap string object :=
  <["tool_call_id" := OData (PStr (tc_id tc))]>
    (<["function_args" := function_args]>
       (<["function_name" := OData (PStr (fn_name (tc_function tc)))]>
          (<["tool" := OToolCall tc]> m))).

(** The namespace in which the tool loop starts when the answer [ch] was
    recorded and inspected first: the kernel has shown the history
    (output 19, with the bindings [shown]) and the inspection cell has
    bound its two names. *)
Definition namespace_after_inspect (shown : gmap string object) (ch : Choice)
    (tcs : list ToolCall) (m : gmap string object) : gmap string object :=
  <["tool_calls" := OToolCalls tcs]>
    (<["finish_reason" := OData (PStr (finish_reason ch))]> (pushed shown m)).

(** [x] is none of [names]. *)
Definition fresh_name (x : string) (names : list string) : bool :=
  negb (existsb (String.eqb x) names).

(** What running a cell may do to the history: the two names keep their
    binding, and the list object [l] only grows at its end. *)
Definition grows (l : loc) (s s' : state) : Prop :=
  ns s' !! "chat_history" = ns s !! "chat_history"
  /\ ns s' !! "messages" = ns s !! "messages"
  /\ exists added, forall h, heap s !! l = Some h -> heap s' !! l = Some (h ++ added).

(** No request was sent. *)
Definition quiet (s s' : state) : Prop := sent s' = sent s.

(** The name [x] kept its binding. *)
Definition keeps (x : string) (s s' : state) : Prop := ns s' !! x = ns s !! x.

(** Every run of [m], returning or raising, relates its two states by [R]. *)
Definition steps {A} (R : state -> state -> Prop) (m : M A) : Prop :=
  forall s, R s (snd (m s)).

(** The request [tc] can be served from the namespace [m] with the text
    [content]: its name is none of the loop's own names and is bound to a
    callable, its arguments decode to a mapping, the callable returns on
    that mapping, and [str] of what it returns is [content]. *)
Definition served (json_loads : string -> option pyval) (str : pyval -> exn + string)
    (m : gmap string object) (tc : ToolCall) (content : string) : Prop :=
  fresh_name (fn_name (tc_function tc)) scratch_names = true
  /\ exists f kw r,
      m !! fn_name (tc_function tc) = Some (OFun f)
      /\ json_loads (fn_arguments (tc_function tc)) = Some (PDict kw)
      /\ f kw = inr r
      /\ str r = inr content.

(** The tool messages for the requests [tcs] with the texts [contents]. *)
Definition tool_messages (tcs : list ToolCall) (contents : list string) : list pyval :=
  zip_with (fun tc content => tool_message (tc_id tc) content) tcs contents.

(** The messages of the requests sent, oldest first. *)
Definition sent_messages (s : state) : list (list pyval) :=
  map rq_messages (sent s).

(** The names the cells of the round trip bind. *)
Definition round_trip_names : list string :=
  ["chat_history"; "completion"; "response_2"; "response_3"] ++ scratch_names.

(** Further requests and states of the recorded exchange. *)
Module Replay.

(** A request for [message], which the notebook defines but does not
    declare as a tool, and a request for [get_weather] without
    arguments. *)
Definition message_call : ToolCall :=
  {| tc_id := "call_4";
     tc_function :=
       {| fn_arguments :=
            "{" +:+ Json.member "role" (Json.quote "user") +:+ ","
                +:+ Json.member "content" (Json.quote "hello") +:+ "}";
          fn_name := "message" |};
     tc_type := "function" |}.

Definition bare_call : ToolCall :=
  {| tc_id := "call_5";
     tc_function := {| fn_arguments := "{}"; fn_name := "get_weather" |};
     tc_type := "function" |}.

(** A request for [get_weather] by a parameter name it does not have. *)
Definition city_call : ToolCall :=
  {| tc_id := "call_6";
     tc_function :=
       {| fn_arguments := "{" +:+ Json.member "city" (Json.quote "Sydney") +:+ "}";
          fn_name := "get_weather" |};
     tc_type := "function" |}.

(** What [message] returns on [message_call], as text. *)
Definition message_text : string :=
  "{'role': 'user', 'content': [{'type': 'text', 'text': 'hello'}]}".

(** An answer in plain text. *)
Definition text_completion : ChatCompletion :=
  {| choices := [Recorded.text_choice "It is sunny."] |}.

(** The kernel at the end of the recorded round trip, and before its last
    cell. *)
Definition after_round_trip : state :=
  snd (round_trip Json.loads Json.to_json Py.str Recorded.hook
         Recorded.answer_1 Recorded.answer_2 Recorded.answer_3 Recorded.after_setup).

Definition before_continue : state :=
  snd ((cell_tool_loop Json.loads Py.str >> cell_show Py.str Recorded.hook >>
        cell_resend Recorded.answer_2 >> cell_print_final) Recorded.before_loop).

(** The kernel when the loop has returned on the recorded call and a
    request for [message]. *)
Definition after_loop : state :=
  snd (cell_tool_loop Json.loads Py.str
         (Recorded.before_loop_of [Recorded.call_1; message_call])).

End Replay.

(** * Properties *)

(** ** The monad *)

Lemma bind_inr {A B} (m : M A) (k : A -> M B) s a s' :
  m s = (inr a, s') -> bind m k s = k a s'.
Proof. intros H. unfold bind. now rewrite H. Qed.

Lemma bind_inl {A B} (m : M A) (k : A -> M B) s e s' :
  m s = (inl e, s') -> bind m k s = (inl e, s').
Proof. intros H. unfold bind. now rewrite H. Qed.

Lemma for_each_app {A} (xs ys : list A) (body : A -> M unit) s :
  for_each (xs ++ ys) body s =
  match for_each xs body s with
  | (inr _, s') => for_each ys body s'
  | (inl e, s') => (inl e, s')
  end.
Proof.
  revert s. induction xs as [|x xs IH]; intros s; simpl.
  - reflexivity.
  - unfold bind. destruct (body x s) as [[e|[]] s1]; [reflexivity|apply IH].
Qed.

(** An iteration that raises ends the loop: the calls after it are not
    looked at. *)
Lemma for_each_raise {A} (xs : list A) x (ys : list A) (body : A -> M unit) s s1 e s2 :
  for_each xs body s = (inr tt, s1) ->
  body x s1 = (inl e, s2) ->
  for_each (xs ++ x :: ys) body s = (inl e, s2).
Proof.
  intros Hxs Hx. rewrite for_each_app, Hxs. simpl.
  now apply bind_inl.
Qed.

Lemma grows_refl l s : grows l s s.
Proof.
  repeat split. exists []. intros h H. now rewrite app_nil_r.
Qed.

Lemma grows_trans l s1 s2 s3 : grows l s1 s2 -> grows l s2 s3 -> grows l s1 s3.
Proof.
  intros (Hc & Hm & a & Ha) (Hc' & Hm' & b & Hb).
  split; [congruence|]. split; [congruence|].
  exists (a ++ b). intros h H. rewrite app_assoc. auto.
Qed.

Section Steps.

Variable R : state -> state -> Prop.
Hypothesis R_refl : forall s, R s s.
Hypothesis R_trans : forall s1 s2 s3, R s1 s2 -> R s2 s3 -> R s1 s3.

Lemma steps_ret {A} (a : A) : steps R (ret a).
Proof. intros s. apply R_refl. Qed.

Lemma steps_raise {A} e : steps R (@raise A e).
Proof. intros s. apply R_refl. Qed.

Lemma steps_bind {A B} (m : M A) (k : A -> M B) :
  steps R m -> (forall a, steps R (k a)) -> steps R (bind m k).
Proof.
  intros Hm Hk s. unfold bind. specialize (Hm s).
  destruct (m s) as [[e|a] s1]; simpl in *; [assumption|].
  eapply R_trans; [eassumption|apply Hk].
Qed.

Lemma steps_lift {A} (r : exn + A) : steps R (lift r).
Proof. destruct r; [apply steps_raise|apply steps_ret]. Qed.

Lemma steps_or_raise {A} e (o : option A) : steps R (or_raise e o).
Proof. destruct o; [apply steps_ret|apply steps_raise]. Qed.

Lemma steps_for_each {A} (xs : list A) (body : A -> M unit) :
  (forall x, steps R (body x)) -> steps R (for_each xs body).
Proof.
  intros Hb. induction xs as [|x xs IH]; simpl.
  - apply steps_ret.
  - apply steps_bind; auto.
Qed.

Lemma steps_load x : steps R (load x).
Proof. intros s. unfold load. apply steps_or_raise. Qed.

Lemma steps_locals_lookup x : steps R (locals_lookup x).
Proof. intros s. unfold locals_lookup. apply steps_or_raise. Qed.

Lemma steps_call f args : steps R (call f args).
Proof.
  unfold call. destruct args; try apply steps_raise.
  destruct f; try apply steps_raise. apply steps_lift.
Qed.

Lemma steps_first_choice x : steps R (first_choice x).
Proof.
  unfold first_choice. apply steps_bind; [apply steps_load|].
  intros [ | | |c| | ]; try apply steps_raise.
  destruct (choices c); [apply steps_raise|apply steps_ret].
Qed.

Lemma steps_contents l : steps R (contents l).
Proof. intros s. apply R_refl. Qed.

Lemma steps_get_append x : steps R (get_append x).
Proof.
  unfold get_append. apply steps_bind; [apply steps_load|].
  intros []; try apply steps_raise. apply steps_ret.
Qed.

End Steps.

Lemma steps_iterate R (R_refl : forall s, R s s) o : steps R (iterate o).
Proof.
  destruct o as [v| | | | | ]; try apply (steps_raise R R_refl);
    try apply (steps_ret R R_refl).
  - destruct v; try apply (steps_raise R R_refl); apply (steps_ret R R_refl).
  - intros s. apply R_refl.
Qed.

(** ** The frame of the cells *)

(** The kernel rebinds names that begin with an underscore, and no
    other. *)
Lemma pushed_lookup k m x : kernel_name x = false -> pushed k m !! x = m !! x.
Proof.
  intros H. unfold pushed.
  apply lookup_union_r, map_lookup_filter_None. right. intros o _. simpl. congruence.
Qed.

Section Frame.

Variable l : loc.

Lemma grows_assign x o :
  x <> "chat_history" -> x <> "messages" -> steps (grows l) (assign x o).
Proof.
  intros H1 H2 s. unfold assign, grows. simpl.
  rewrite !lookup_insert_ne by assumption.
  repeat split. exists []. intros h H. now rewrite app_nil_r.
Qed.

Lemma grows_alloc x : steps (grows l) (alloc x).
Proof.
  intros s. unfold alloc, grows. simpl. repeat split.
  exists []. intros h H. rewrite app_nil_r. now apply lookup_app_l_Some.
Qed.

Lemma grows_assign_value x v :
  x <> "chat_history" -> x <> "messages" -> steps (grows l) (assign_value x v).
Proof.
  intros H1 H2. unfold assign_value.
  destruct v; try now apply grows_assign.
  apply steps_bind; [apply grows_trans|apply grows_alloc|].
  intros o. now apply grows_assign.
Qed.

Lemma grows_push k : steps (grows l) (push k).
Proof.
  intros s. unfold push, grows. simpl.
  rewrite !pushed_lookup by reflexivity.
  repeat split. exists []. intros h H. now rewrite app_nil_r.
Qed.

Lemma grows_do_append l' v : steps (grows l) (do_append l' v).
Proof.
  intros s. unfold do_append, grows. simpl. repeat split.
  destruct (decide (l' = l)) as [->|Hne].
  - exists [v]. intros h H. now rewrite list_lookup_alter_eq, H.
  - exists []. intros h H. rewrite app_nil_r.
    now rewrite list_lookup_alter_ne.
Qed.

Lemma grows_append x v : steps (grows l) (append x v).
Proof.
  unfold append. apply steps_bind; [apply grows_trans|apply steps_load, grows_refl|].
  intros []; try apply steps_raise, grows_refl. apply (grows_do_append l0 v).
Qed.

Lemma grows_create x t answer : steps (grows l) (create x t answer).
Proof.
  unfold create.
  apply steps_bind; [apply grows_trans|apply steps_load, grows_refl|]. intros m.
  apply steps_bind; [apply grows_trans| |].
  - destruct t; [|apply steps_ret, grows_refl].
    apply steps_bind; [apply grows_trans|apply steps_load, grows_refl|].
    intros o. apply steps_ret, grows_refl.
  - intros o s.
    destruct m; try apply grows_refl.
    destruct o as [[]|]; try apply grows_refl;
      destruct answer; simpl; unfold grows; simpl; repeat split;
      exists []; intros h H; now rewrite app_nil_r.
Qed.

End Frame.

(** Sending is the only thing the cells do to the log of requests. *)
Lemma quiet_refl s : quiet s s.
Proof. reflexivity. Qed.

Lemma quiet_trans s1 s2 s3 : quiet s1 s2 -> quiet s2 s3 -> quiet s1 s3.
Proof. unfold quiet. congruence. Qed.

Lemma quiet_assign x o : steps quiet (assign x o).
Proof. intros s. reflexivity. Qed.

Lemma quiet_alloc x : steps quiet (alloc x).
Proof. intros s. reflexivity. Qed.

Lemma quiet_assign_value x v : steps quiet (assign_value x v).
Proof. intros st. destruct v; reflexivity. Qed.

Lemma quiet_push k : steps quiet (push k).
Proof. intros s. reflexivity. Qed.

Lemma quiet_do_append l v : steps quiet (do_append l v).
Proof. intros s. reflexivity. Qed.

Lemma quiet_append x v : steps quiet (append x v).
Proof.
  intros s. unfold append, load, bind, or_raise.
  destruct (ns s !! x) as [[]|]; reflexivity.
Qed.

(** A name is rebound by an assignment to it and by nothing else. *)
Section Keeps.

Variable x : string.

Lemma keeps_refl s : keeps x s s.
Proof. reflexivity. Qed.

Lemma keeps_trans s1 s2 s3 : keeps x s1 s2 -> keeps x s2 s3 -> keeps x s1 s3.
Proof. unfold keeps. congruence. Qed.

Lemma keeps_assign y o : x <> y -> steps (keeps x) (assign y o).
Proof.
  intros H s. unfold keeps, assign. simpl. now rewrite lookup_insert_ne by congruence.
Qed.

Lemma keeps_alloc v : steps (keeps x) (alloc v).
Proof. intros s. reflexivity. Qed.

Lemma keeps_assign_value y v : x <> y -> steps (keeps x) (assign_value y v).
Proof.
  intros H. unfold assign_value. destruct v; try now apply keeps_assign.
  apply steps_bind; [apply keeps_trans|apply keeps_alloc|].
  intros o. now apply keeps_assign.
Qed.

(** The kernel rebinds names of its own only. *)
Lemma keeps_push k : kernel_name x = false -> steps (keeps x) (push k).
Proof. intros H s. unfold keeps, push. simpl. now apply pushed_lookup. Qed.

Lemma keeps_do_append l v : steps (keeps x) (do_append l v).
Proof. intros s. reflexivity. Qed.

Lemma keeps_append y v : steps (keeps x) (append y v).
Proof.
  intros s. unfold append, load, bind, or_raise.
  destruct (ns s !! y) as [[]|]; reflexivity.
Qed.

Lemma keeps_create y t answer : steps (keeps x) (create y t answer).
Proof.
  intros s. unfold create, load, bind, or_raise, ret.
  destruct (ns s !! y) as [m|]; [|reflexivity].
  destruct t as [z|]; [destruct (ns s !! z) as [o|]; [|reflexivity]|];
    destruct m; try reflexivity; try (destruct o; try reflexivity);
    destruct answer; reflexivity.
Qed.

End Keeps.

(** Decomposes a goal [steps R m] along the structure of [m], for the
    three relations [grows l], [quiet] and [keeps x]. *)
Ltac rel_refl := first [apply grows_refl | exact quiet_refl | apply keeps_refl].
Ltac rel_trans := first [apply grows_trans | exact quiet_trans | apply keeps_trans].
Ltac side := first [discriminate | assumption | congruence].

Ltac frame :=
  repeat first
    [ apply steps_ret; rel_refl
    | apply steps_raise; rel_refl
    | apply steps_lift; rel_refl
    | apply steps_or_raise; rel_refl
    | apply steps_load; rel_refl
    | apply steps_locals_lookup; rel_refl
    | apply steps_call; rel_refl
    | apply steps_iterate; rel_refl
    | apply steps_contents; rel_refl
    | progress unfold display, str_of
    | apply grows_push
    | apply quiet_push
    | apply keeps_push; first [reflexivity | assumption]
    | apply steps_first_choice; [rel_refl|rel_trans]
    | apply steps_get_append; [rel_refl|rel_trans]
    | apply grows_assign; side
    | apply grows_assign_value; side
    | apply grows_alloc
    | apply grows_do_append
    | apply grows_append
    | apply grows_create
    | apply quiet_assign
    | apply quiet_assign_value
    | apply quiet_alloc
    | apply quiet_do_append
    | apply quiet_append
    | apply keeps_assign; side
    | apply keeps_assign_value; side
    | apply keeps_alloc
    | apply keeps_do_append
    | apply keeps_append
    | apply keeps_create
    | apply steps_for_each; [rel_refl|rel_trans|intros ?]
    | apply steps_bind; [rel_trans| |intros ?]
    | match goal with
      | |- steps _ (match ?x with _ => _ end) => destruct x
      end ].

Lemma fresh_name_cons x y names :
  fresh_name x (y :: names) = true -> x <> y /\ fresh_name x names = true.
Proof.
  unfold fresh_name. simpl. rewrite negb_orb, andb_true_iff, negb_true_iff.
  intros [H1 H2]. split; [|exact H2]. now apply String.eqb_neq.
Qed.

Lemma fresh_before_dispatch x :
  fresh_name x bound_before_dispatch = true ->
  x <> "tool" /\ x <> "function_name" /\ x <> "function_args" /\ x <> "tool_call_id".
Proof.
  unfold bound_before_dispatch. intros H.
  repeat (apply fresh_name_cons in H as [? H]). auto.
Qed.

Lemma fresh_scratch x :
  fresh_name x scratch_names = true ->
  x <> "finish_reason" /\ x <> "tool_calls"
  /\ fresh_name x bound_before_dispatch = true
  /\ x <> "tool" /\ x <> "function_name" /\ x <> "function_args"
  /\ x <> "tool_call_id" /\ x <> "function_call_results"
  /\ x <> "function_call_results_message".
Proof.
  unfold scratch_names, bound_before_dispatch. simpl. intros H.
  apply fresh_name_cons in H as [N1 H]. apply fresh_name_cons in H as [N2 H].
  apply fresh_name_cons in H as [N3 H]. apply fresh_name_cons in H as [N4 H].
  apply fresh_name_cons in H as [N5 H]. apply fresh_name_cons in H as [N6 H].
  apply fresh_name_cons in H as [N7 H]. apply fresh_name_cons in H as [N8 _].
  repeat split; auto.
  unfold fresh_name. simpl.
  apply String.eqb_neq in N3, N4, N5, N6. now rewrite N3, N4, N5, N6.
Qed.

Section CellFrames.

Variable json_loads : string -> option pyval.
Variable to_json : ChatCompletionMessage -> string.
Variable str : pyval -> exn + string.
Variable display_hook : nat -> gmap string object.
Variable l : loc.

Lemma grows_loop_body tool : steps (grows l) (loop_body json_loads str tool).
Proof. unfold loop_body, loads_or_raise. frame. Qed.

Lemma grows_tool_loop : steps (grows l) (cell_tool_loop json_loads str).
Proof.
  unfold cell_tool_loop. frame.
Qed.

Lemma quiet_loop_body tool : steps quiet (loop_body json_loads str tool).
Proof. unfold loop_body, loads_or_raise. frame. Qed.

Lemma quiet_tool_loop : steps quiet (cell_tool_loop json_loads str).
Proof. unfold cell_tool_loop. frame. Qed.

Lemma keeps_loop_body x tool :
  fresh_name x scratch_names = true ->
  steps (keeps x) (loop_body json_loads str tool).
Proof.
  intros H. apply fresh_scratch in H as (? & ? & _ & ? & ? & ? & ? & ? & ?).
  unfold loop_body, loads_or_raise. frame.
Qed.

(** The loop rebinds its own names only: what a function name is bound to
    is the same for every request of the list. *)
Lemma keeps_tool_loop x :
  fresh_name x scratch_names = true ->
  steps (keeps x) (cell_tool_loop json_loads str).
Proof.
  intros H. unfold cell_tool_loop.
  apply steps_bind; [apply keeps_trans|apply steps_load, keeps_refl|intros o].
  apply steps_bind; [apply keeps_trans|apply steps_iterate, keeps_refl|intros items].
  apply steps_for_each; [apply keeps_refl|apply keeps_trans|intros tool].
  now apply keeps_loop_body.
Qed.

Lemma quiet_show : steps quiet (cell_show str display_hook).
Proof. unfold cell_show. frame. Qed.

Lemma grows_append_answer x : steps (grows l) (append_answer json_loads to_json x).
Proof. unfold append_answer, loads_or_raise. frame. Qed.

Lemma grows_record_call : steps (grows l) (cell_record_call json_loads to_json display_hook).
Proof. unfold cell_record_call. frame. Qed.

Lemma grows_inspect : steps (grows l) cell_inspect.
Proof. unfold cell_inspect. frame. Qed.

Lemma grows_continue a : steps (grows l) (cell_continue json_loads to_json a).
Proof. unfold cell_continue. frame. Qed.

(** Steps 2 to 6: everything after [chat_history = messages] and the
    first call. *)
Lemma grows_after_send a2 a3 :
  steps (grows l)
    (cell_print_completion >> cell_record_call json_loads to_json display_hook >>
     cell_inspect >> cell_tool_loop json_loads str >> cell_show str display_hook >>
     cell_resend a2 >> cell_print_final >> cell_continue json_loads to_json a3).
Proof.
  apply steps_bind; [apply grows_trans|unfold cell_print_completion; frame|intros _].
  apply steps_bind; [apply grows_trans|apply grows_record_call|intros _].
  apply steps_bind; [apply grows_trans|apply grows_inspect|intros _].
  apply steps_bind; [apply grows_trans|apply grows_tool_loop|intros _].
  apply steps_bind; [apply grows_trans|unfold cell_show; frame|intros _].
  apply steps_bind; [apply grows_trans|unfold cell_resend; frame|intros _].
  apply steps_bind; [apply grows_trans|unfold cell_print_final; frame|intros _].
  apply grows_continue.
Qed.

End CellFrames.

(** ** Reading the history *)

Lemma history_inv s h :
  history s = Some h <->
  exists l, ns s !! "chat_history" = Some (OList l) /\ heap s !! l = Some h.
Proof.
  unfold history, deref. split.
  - destruct (ns s !! "chat_history") as [[]|]; try discriminate. eauto.
  - intros (l & -> & H). exact H.
Qed.

Lemma grows_history l s s' h :
  ns s !! "chat_history" = Some (OList l) -> heap s !! l = Some h ->
  grows l s s' ->
  exists added, history s' = Some (h ++ added) /\ heap s' !! l = Some (h ++ added).
Proof.
  intros Hc Hh (Hc' & _ & added & Ha). exists added.
  unfold history, deref. rewrite Hc', Hc. split; now apply Ha.
Qed.

Lemma steps_history {A} (m : M A) s h :
  (forall l, steps (grows l) m) ->
  history s = Some h ->
  exists added, history (snd (m s)) = Some (h ++ added).
Proof.
  intros Hm Hs. apply history_inv in Hs as (l & Hc & Hh).
  destruct (grows_history l s (snd (m s)) h Hc Hh (Hm l s)) as (added & H & _).
  eauto.
Qed.

(** ** Append-only history *)

(** C7.  Whatever the state and the history [h] in it, each operation of
    the round trip on the history leaves [h] as a prefix of the history it
    ends with, whether it returns or raises: recording the model's
    tool-call message, the tool loop that records the results, recording
    the final answer, adding a user turn, and the cells 2 to 6 run one
    after the other. *)
Theorem history_append_only
    (json_loads : string -> option pyval) (to_json : ChatCompletionMessage -> string)
    (str : pyval -> exn + string) (display_hook : nat -> gmap string object)
    (content : pyval) (a2 a3 : exn + ChatCompletion) (s : state) (h : list pyval) :
  history s = Some h ->
  (exists added,
      history (snd (append_answer json_loads to_json "completion" s)) = Some (h ++ added))
  /\ (exists added, history (snd (cell_tool_loop json_loads str s)) = Some (h ++ added))
  /\ (exists added,
      history (snd (append_answer json_loads to_json "response_2" s)) = Some (h ++ added))
  /\ (exists added,
      history (snd (append "chat_history" (message (PStr "user") content) s))
      = Some (h ++ added))
  /\ (exists added,
      history (snd ((cell_print_completion >>
                     cell_record_call json_loads to_json display_hook >>
                     cell_inspect >> cell_tool_loop json_loads str >>
                     cell_show str display_hook >>
                     cell_resend a2 >> cell_print_final >>
                     cell_continue json_loads to_json a3) s))
      = Some (h ++ added)).
Proof.
  intros Hs. repeat split.
  - apply steps_history; [intros l; apply grows_append_answer|exact Hs].
  - apply steps_history; [intros l; apply grows_tool_loop|exact Hs].
  - apply steps_history; [intros l; apply grows_append_answer|exact Hs].
  - apply steps_history; [intros l; apply grows_append|exact Hs].
  - apply steps_history; [intros l; apply grows_after_send|exact Hs].
Qed.

(** ** One iteration of the tool loop *)

(** Unfolds the primitives of the monad in the goal. *)
Ltac run :=
  unfold first_choice, get_append, append, assign_value, loads_or_raise, call,
    locals_lookup, load, alloc, assign, do_append, lift, or_raise, bind, ret, raise;
  cbn [fst snd ns heap sent set_ns set_heap set_sent].

Ltac proj := cbn [fst snd ns heap sent set_ns set_heap set_sent].

(** Looks a constant name up through the bindings added on top. *)
Ltac lookups :=
  repeat first [rewrite lookup_insert_eq | rewrite lookup_insert_ne by discriminate
               | rewrite pushed_lookup by reflexivity].

Ltac fold_dispatch :=
  repeat match goal with
    | |- context [<["tool_call_id" := OData (PStr (tc_id ?tc))]>
                    (<["function_args" := ?o]>
                       (<["function_name" := _]> (<["tool" := _]> ?m)))] =>
        change (<["tool_call_id" := OData (PStr (tc_id tc))]>
                  (<["function_args" := o]>
                     (<["function_name" := OData (PStr (fn_name (tc_function tc)))]>
                        (<["tool" := OToolCall tc]> m))))
          with (namespace_at_dispatch tc o m)
    end.

Section Iteration.

Variable json_loads : string -> option pyval.
Variable str : pyval -> exn + string.

(** The namespace in which the iteration for [tc] dispatches, when the
    arguments decoded to [args]. *)
Lemma dispatch_namespace (m : gmap string object) tc (o : object) x :
  fresh_name x bound_before_dispatch = true ->
  namespace_at_dispatch tc o m !! x = m !! x.
Proof.
  intros H. apply fresh_before_dispatch in H as (H1 & H2 & H3 & H4).
  unfold namespace_at_dispatch. now rewrite !lookup_insert_ne by congruence.
Qed.

Lemma body_decode_error tc s :
  json_loads (fn_arguments (tc_function tc)) = None ->
  loop_body json_loads str (OToolCall tc) s =
  (inl JSONDecodeError,
   set_ns (fun m => <["function_name" := OData (PStr (fn_name (tc_function tc)))]>
                      (<["tool" := OToolCall tc]> m)) s).
Proof.
  intros H. unfold loop_body. run. rewrite H. reflexivity.
Qed.

Lemma body_unknown tc s args :
  json_loads (fn_arguments (tc_function tc)) = Some args ->
  fresh_name (fn_name (tc_function tc)) bound_before_dispatch = true ->
  ns s !! fn_name (tc_function tc) = None ->
  let out := loop_body json_loads str (OToolCall tc) s in
  fst out = inl (KeyError (fn_name (tc_function tc)))
  /\ sent (snd out) = sent s
  /\ ns (snd out) !! "chat_history" = ns s !! "chat_history"
  /\ forall l h, heap s !! l = Some h -> heap (snd out) !! l = Some h.
Proof.
  intros Hargs Hfresh Hnone. unfold loop_body. run. rewrite Hargs.
  destruct args; run; fold_dispatch; rewrite dispatch_namespace, Hnone by assumption;
    proj; (split; [reflexivity|split; [reflexivity|split]]);
    try (now rewrite !lookup_insert_ne by discriminate);
    intros i h H; try assumption.
  now apply lookup_app_l_Some.
Qed.

Lemma body_not_callable tc s args o :
  json_loads (fn_arguments (tc_function tc)) = Some args ->
  fresh_name (fn_name (tc_function tc)) bound_before_dispatch = true ->
  ns s !! fn_name (tc_function tc) = Some o ->
  (forall f, o <> OFun f) ->
  let out := loop_body json_loads str (OToolCall tc) s in
  fst out = inl TypeError
  /\ ns (snd out) !! "chat_history" = ns s !! "chat_history"
  /\ forall l h, heap s !! l = Some h -> heap (snd out) !! l = Some h.
Proof.
  intros Hargs Hfresh Ho Hnf. unfold loop_body. run. rewrite Hargs.
  destruct args; run; fold_dispatch; rewrite dispatch_namespace, Ho by assumption;
    proj;
    try (destruct o as [| |f| | |]; try (now destruct (Hnf f)); proj);
    (split; [reflexivity|split]);
    try (now rewrite !lookup_insert_ne by discriminate);
    intros i h H; try assumption;
    now apply lookup_app_l_Some.
Qed.

(** The iteration for a request whose name is bound to a callable where
    the loop looks it up. *)
Lemma body_dispatch tc s kw f r content l h :
  json_loads (fn_arguments (tc_function tc)) = Some (PDict kw) ->
  namespace_at_dispatch tc (OData (PDict kw)) (ns s) !! fn_name (tc_function tc)
  = Some (OFun f) ->
  f kw = inr r ->
  str r = inr content ->
  ns s !! "chat_history" = Some (OList l) ->
  heap s !! l = Some h ->
  let out := loop_body json_loads str (OToolCall tc) s in
  fst out = inr tt
  /\ history (snd out) = Some (h ++ [tool_message (tc_id tc) content])
  /\ ns (snd out) !! "function_args" = Some (OData (PDict kw))
  /\ sent (snd out) = sent s.
Proof.
  intros Hargs Hf Hr Hs Hc Hh. unfold loop_body. run. rewrite Hargs.
  run. fold_dispatch. rewrite Hf.
  rewrite Hr. unfold history, deref.
  destruct r; run; rewrite Hs; proj;
    rewrite ?lookup_insert_ne by discriminate; rewrite Hc; proj;
    rewrite ?lookup_insert_ne by discriminate; rewrite Hc;
    (split; [reflexivity|split; [|split; [|reflexivity]]]);
    try (now rewrite lookup_insert_eq);
    rewrite list_lookup_alter_eq; try (now rewrite Hh).
  erewrite lookup_app_l_Some by eassumption. reflexivity.
Qed.

Lemma body_success tc s kw f r content l h :
  json_loads (fn_arguments (tc_function tc)) = Some (PDict kw) ->
  fresh_name (fn_name (tc_function tc)) bound_before_dispatch = true ->
  ns s !! fn_name (tc_function tc) = Some (OFun f) ->
  f kw = inr r ->
  str r = inr content ->
  ns s !! "chat_history" = Some (OList l) ->
  heap s !! l = Some h ->
  let out := loop_body json_loads str (OToolCall tc) s in
  fst out = inr tt
  /\ history (snd out) = Some (h ++ [tool_message (tc_id tc) content])
  /\ ns (snd out) !! "function_args" = Some (OData (PDict kw))
  /\ sent (snd out) = sent s.
Proof.
  intros Hargs Hfresh Hf Hr Hs Hc Hh. unfold loop_body. run. rewrite Hargs.
  run. fold_dispatch. rewrite dispatch_namespace, Hf by assumption.
  rewrite Hr. unfold history, deref.
  destruct r; run; rewrite Hs; proj;
    rewrite ?lookup_insert_ne by discriminate; rewrite Hc; proj;
    rewrite ?lookup_insert_ne by discriminate; rewrite Hc;
    (split; [reflexivity|split; [|split; [|reflexivity]]]);
    try (now rewrite lookup_insert_eq);
    rewrite list_lookup_alter_eq; try (now rewrite Hh).
  erewrite lookup_app_l_Some by eassumption. reflexivity.
Qed.

(** An iteration that returns has decoded a mapping, found a callable
    under the requested name, called it on the mapping, converted its
    result with [str], and appended the tool message with that text. *)
Lemma body_returns tool s s' l h :
  ns s !! "chat_history" = Some (OList l) ->
  heap s !! l = Some h ->
  loop_body json_loads str tool s = (inr tt, s') ->
  exists tc kw f r content,
    tool = OToolCall tc
    /\ json_loads (fn_arguments (tc_function tc)) = Some (PDict kw)
    /\ namespace_at_dispatch tc (OData (PDict kw)) (ns s) !! fn_name (tc_function tc)
       = Some (OFun f)
    /\ f kw = inr r
    /\ str r = inr content
    /\ heap s' !! l = Some (h ++ [tool_message (tc_id tc) content])
    /\ ns s' !! "chat_history" = Some (OList l)
    /\ sent s' = sent s.
Proof.
  intros Hc Hh. unfold loop_body. run.
  destruct tool as [| | | | |tc]; try discriminate.
  destruct (json_loads (fn_arguments (tc_function tc))) as [args|] eqn:Hargs;
    [|discriminate].
  destruct args as [| | | | | |kw]; run; fold_dispatch;
    try (destruct (_ !! fn_name (tc_function tc)); discriminate).
  destruct (namespace_at_dispatch _ _ _ !! _) as [[| |f| | |]|] eqn:Hf;
    try discriminate.
  destruct (f kw) as [e|r] eqn:Hr; [discriminate|].
  destruct (str r) as [e|content] eqn:Hs; [destruct r; discriminate|].
  intros H. exists tc, kw, f, r, content.
  repeat (split; [reflexivity || assumption|]).
  revert H.
  destruct r; proj; rewrite ?lookup_insert_ne by discriminate; rewrite Hc;
    intros [= <-]; proj; rewrite ?lookup_insert_ne by discriminate;
    (split; [|split; [assumption|reflexivity]]);
    rewrite list_lookup_alter_eq; try (now rewrite Hh).
  erewrite lookup_app_l_Some by eassumption. reflexivity.
Qed.

Lemma body_binds_args tc s kw :
  json_loads (fn_arguments (tc_function tc)) = Some (PDict kw) ->
  ns (snd (loop_body json_loads str (OToolCall tc) s)) !! "function_args"
  = Some (OData (PDict kw)).
Proof.
  intros Hargs. unfold loop_body. run. rewrite Hargs. run.
  repeat (match goal with
          | |- context [match ?x with _ => _ end] =>
              first [is_var x
                    | match x with
                      | _ !! _ => idtac
                      | ?g _ => is_var g
                      end];
              destruct x
          end; proj);
    now lookups.
Qed.

Lemma body_not_a_mapping tc s args :
  json_loads (fn_arguments (tc_function tc)) = Some args ->
  match args with PDict _ => False | _ => True end ->
  exists e, fst (loop_body json_loads str (OToolCall tc) s) = inl e.
Proof.
  intros Hargs Hnot. unfold loop_body. run. rewrite Hargs.
  destruct args; try contradiction; run;
    match goal with
    | |- context [match ?x !! ?k with _ => _ end] => destruct (x !! k)
    end; proj; eauto.
Qed.

Lemma loop_returns tcs : forall s s' l h,
  ns s !! "chat_history" = Some (OList l) ->
  heap s !! l = Some h ->
  for_each (map OToolCall tcs) (loop_body json_loads str) s = (inr tt, s') ->
  exists ms,
    answered tcs ms
    /\ heap s' !! l = Some (h ++ ms)
    /\ ns s' !! "chat_history" = Some (OList l)
    /\ sent s' = sent s.
Proof.
  induction tcs as [|tc tcs IH]; intros s s' l h Hc Hh; simpl.
  - intros [= <-]. exists []. rewrite app_nil_r. repeat split; auto. constructor.
  - unfold bind at 1.
    destruct (loop_body json_loads str (OToolCall tc) s) as [[e|[]] s1] eqn:Hb;
      [discriminate|].
    intros Hrest.
    destruct (body_returns _ _ _ _ _ Hc Hh Hb)
      as (tc' & kw & f & _ & r & [= <-] & _ & _ & _ & _ & Hh1 & Hc1 & Hs1).
    destruct (IH _ _ _ _ Hc1 Hh1 Hrest) as (ms & Hms & Hh' & Hc' & Hs').
    exists (tool_message (tc_id tc) r :: ms).
    rewrite <- app_assoc in Hh'. repeat split; auto; [|congruence].
    constructor; eauto.
Qed.

End Iteration.

Lemma answers_tool_message i j r :
  answers i (tool_message j r) = String.eqb j i.
Proof. reflexivity. Qed.

Lemma answered_count tcs ms i :
  answered tcs ms -> count_answers i ms = count_requests i tcs.
Proof.
  unfold count_answers, count_requests.
  induction 1 as [|tc m tcs ms [r ->] _ IH]; [reflexivity|].
  rewrite !filter_cons, answers_tool_message.
  destruct (String.eqb_spec (tc_id tc) i) as [E|E].
  - rewrite !decide_True by auto. simpl. now rewrite IH.
  - rewrite decide_False by discriminate. rewrite decide_False by assumption.
    exact IH.
Qed.

(** ** The cells around the loop *)

Section CellRuns.

Variable json_loads : string -> option pyval.
Variable to_json : ChatCompletionMessage -> string.
Variable str : pyval -> exn + string.
Variable display_hook : nat -> gmap string object.

Lemma first_choice_run x s c ch rest :
  ns s !! x = Some (OCompletion c) -> choices c = ch :: rest ->
  first_choice x s = (inr ch, s).
Proof. intros H1 H2. run. now rewrite H1, H2. Qed.

Lemma append_answer_run x s c ch rest v l :
  ns s !! x = Some (OCompletion c) -> choices c = ch :: rest ->
  json_loads (to_json (choice_message ch)) = Some v ->
  ns s !! "chat_history" = Some (OList l) ->
  append_answer json_loads to_json x s =
  (inr tt, set_heap (alter (fun h => h ++ [v]) l) s).
Proof.
  intros H1 H2 H3 H4. unfold append_answer. run.
  rewrite H4. proj. rewrite H1, H2. proj. now rewrite H3.
Qed.

Lemma record_call_run s c ch rest v l :
  ns s !! "completion" = Some (OCompletion c) -> choices c = ch :: rest ->
  json_loads (to_json (choice_message ch)) = Some v ->
  ns s !! "chat_history" = Some (OList l) ->
  cell_record_call json_loads to_json display_hook s =
  (inr tt,
   set_ns (pushed (display_hook 19)) (set_heap (alter (fun h => h ++ [v]) l) s)).
Proof.
  intros H1 H2 H3 H4. unfold cell_record_call.
  erewrite bind_inr by (eapply append_answer_run; eassumption).
  unfold display, push. run. now rewrite H4.
Qed.

Lemma inspect_run s c ch rest tc tcs :
  ns s !! "completion" = Some (OCompletion c) -> choices c = ch :: rest ->
  msg_tool_calls (choice_message ch) = Some (tc :: tcs) ->
  cell_inspect s =
  (inr tt,
   set_ns (fun m => <["tool_calls" := OToolCalls (tc :: tcs)]>
                      (<["finish_reason" := OData (PStr (finish_reason ch))]> m)) s).
Proof.
  intros H1 H2 H3. unfold cell_inspect. run.
  rewrite H1, H2. proj. rewrite lookup_insert_ne by discriminate.
  rewrite H1, H2. proj. rewrite H3. reflexivity.
Qed.

(** The two display cells return unless [str] raises or a name is not
    bound, and then only the kernel's names have changed. *)
Lemma show_returns s s' :
  cell_show str display_hook s = (inr tt, s') ->
  s' = set_ns (pushed (display_hook 23)) (set_ns (pushed (display_hook 22)) s).
Proof.
  unfold cell_show, display, push, str_of, contents. run.
  destruct (ns s !! "function_call_results") as [o|]; [|discriminate].
  destruct o; proj; try destruct (str _); proj; try discriminate;
    rewrite pushed_lookup by reflexivity;
    (destruct (ns s !! "chat_history"); proj; [|discriminate]);
    now intros [= <-].
Qed.

Lemma tool_loop_run s tcs :
  ns s !! "tool_calls" = Some (OToolCalls tcs) ->
  cell_tool_loop json_loads str s =
  for_each (map OToolCall tcs) (loop_body json_loads str) s.
Proof.
  intros H. unfold cell_tool_loop, iterate. run. now rewrite H.
Qed.

End CellRuns.


(** ** One tool call of a registered function *)

(** C1, as the code has it.  The model's answer is bound to
    [completion] and its message carries exactly the tool call [tc].  The
    requested name resolves to the callable [f]: that is what the name is
    bound to where the loop looks it up, after the cells that record and
    inspect the answer and the four assignments of the iteration.  The
    arguments decode to the mapping [kw], [f] returns [r] on it and [str]
    gives the text [content] for [r].  Then recording the answer,
    inspecting it and running the tool loop return; the history ends with
    the recorded answer followed by the tool message for the call of [f]
    on exactly [kw], whose [tool_call_id] is the id of [tc] and whose
    content is [content]; and [function_args] is bound to [kw]. *)
Theorem one_registered_tool_call
    (json_loads : string -> option pyval) (to_json : ChatCompletionMessage -> string)
    (str : pyval -> exn + string) (display_hook : nat -> gmap string object)
    (s : state) (c : ChatCompletion) (ch : Choice) (rest : list Choice)
    (tc : ToolCall) (v : pyval) (kw : kwargs) (f : kwargs -> exn + pyval) (r : pyval)
    (content : string) (l : loc) (h : list pyval) :
  ns s !! "completion" = Some (OCompletion c) ->
  choices c = ch :: rest ->
  msg_tool_calls (choice_message ch) = Some [tc] ->
  json_loads (to_json (choice_message ch)) = Some v ->
  ns s !! "chat_history" = Some (OList l) ->
  heap s !! l = Some h ->
  json_loads (fn_arguments (tc_function tc)) = Some (PDict kw) ->
  namespace_at_dispatch tc (OData (PDict kw))
    (namespace_after_inspect (display_hook 19) ch [tc] (ns s))
  !! fn_name (tc_function tc) = Some (OFun f) ->
  f kw = inr r ->
  str r = inr content ->
  let out := (cell_record_call json_loads to_json display_hook >> cell_inspect >>
              cell_tool_loop json_loads str) s in
  fst out = inr tt
  /\ history (snd out) = Some (h ++ [v; tool_message (tc_id tc) content])
  /\ field "tool_call_id" (tool_message (tc_id tc) content) = Some (PStr (tc_id tc))
  /\ field "content" (tool_message (tc_id tc) content) = Some (PStr content)
  /\ ns (snd out) !! "function_args" = Some (OData (PDict kw)).
Proof.
  intros Hcompl Hch Htcs Hv Hc Hh Hkw Hf Hr Hstr out. subst out.
  erewrite bind_inr by (eapply record_call_run; eassumption).
  erewrite bind_inr
    by (eapply inspect_run; proj; [rewrite pushed_lookup by reflexivity| |]; eassumption).
  erewrite tool_loop_run by (proj; apply lookup_insert_eq).
  simpl map. unfold for_each.
  match goal with |- context [bind ?m ?k ?s0] => set (s1 := s0) end.
  assert (Hh1 : heap s1 !! l = Some (h ++ [v])).
  { subst s1. proj. now rewrite list_lookup_alter_eq, Hh. }
  assert (Hc1 : ns s1 !! "chat_history" = Some (OList l)).
  { subst s1. proj. now lookups. }
  assert (Hf1 : namespace_at_dispatch tc (OData (PDict kw)) (ns s1)
                !! fn_name (tc_function tc) = Some (OFun f)) by exact Hf.
  destruct (body_dispatch json_loads str tc s1 kw f r content l (h ++ [v])
              Hkw Hf1 Hr Hstr Hc1 Hh1)
    as (Hret & Hhist & Hargs & _).
  unfold bind.
  destruct (loop_body json_loads str (OToolCall tc) s1) as [[e|[]] s2];
    simpl in Hret; [discriminate|].
  simpl in Hhist, Hargs. rewrite <- app_assoc in Hhist.
  unfold ret. proj. repeat split; assumption.
Qed.

(** ** Every request answered once *)

(** C2.  The tool loop starts with the requests [tcs] bound to
    [tool_calls] and the history [h].  If the cells up to the next model
    call ([response_2]) do send their request, then the loop has appended
    one tool message per request, in the order of the requests and each
    with the id of its request: for every id there are, among the appended
    messages, as many results as requests with that id (one, when the ids
    are distinct).
    The history sent to the model is [h] followed by exactly these
    messages. *)
Theorem every_request_answered
    (json_loads : string -> option pyval)
    (str : pyval -> exn + string) (display_hook : nat -> gmap string object)
    (a2 : exn + ChatCompletion)
    (s : state) (tcs : list ToolCall) (l : loc) (h : list pyval) :
  ns s !! "tool_calls" = Some (OToolCalls tcs) ->
  ns s !! "chat_history" = Some (OList l) ->
  heap s !! l = Some h ->
  let out := (cell_tool_loop json_loads str >> cell_show str display_hook >>
              cell_resend a2) s in
  sent (snd out) <> sent s ->
  exists ms,
    answered tcs ms
    /\ (forall i, count_answers i ms = count_requests i tcs)
    /\ history (snd out) = Some (h ++ ms)
    /\ exists rq, sent (snd out) = sent s ++ [rq] /\ rq_messages rq = h ++ ms.
Proof.
  intros Htc Hc Hh out. subst out.
  pose proof (quiet_tool_loop json_loads str s) as Hq. red in Hq.
  rewrite (tool_loop_run json_loads str s tcs Htc) in Hq.
  destruct (for_each (map OToolCall tcs) (loop_body json_loads str) s)
    as [[e|[]] s1] eqn:Hloop; simpl in Hq.
  all: rewrite <- (tool_loop_run json_loads str s tcs Htc) in Hloop.
  { rewrite (bind_inl _ _ _ _ _ Hloop). intros Hsent. now destruct Hsent. }
  rewrite (bind_inr _ _ _ _ _ Hloop).
  rewrite (tool_loop_run json_loads str s tcs Htc) in Hloop.
  destruct (loop_returns json_loads str tcs s s1 l h Hc Hh Hloop)
    as (ms & Hms & Hh1 & Hc1 & _).
  pose proof (quiet_show str display_hook s1) as Hq2. red in Hq2.
  destruct (cell_show str display_hook s1) as [[e|[]] s2] eqn:Hshow; simpl in Hq2.
  { rewrite (bind_inl _ _ _ _ _ Hshow). simpl. intros Hsent. destruct Hsent.
    congruence. }
  rewrite (bind_inr _ _ _ _ _ Hshow). clear Hq2.
  apply show_returns in Hshow. subst s2.
  unfold cell_resend, create, history, deref. run. lookups.
  rewrite Hc1. proj. lookups.
  destruct (ns s1 !! "tools") as [t|]; proj;
    [|intros Hsent; now destruct Hsent].
  destruct t as [| lt | | | |]; proj; try (intros Hsent; now destruct Hsent).
  rewrite Hh1. intros _. exists ms.
  split; [exact Hms|]. split; [intros i; now apply answered_count|].
  destruct a2 as [e|c2]; proj; lookups;
    rewrite Hc1, Hh1, Hq; (split; [reflexivity|]); eexists; split; reflexivity.
Qed.

(** ** The error paths of the loop *)

(** C3.  The dispatch resolves the requested name by a lookup in the
    namespace ([locals()], which maps names to objects, the defined
    functions among them).  When the loop has processed the requests
    before [tc], the arguments of [tc] decode, and its function name is
    bound to nothing at that point (nor is one of the four names the
    iteration has just bound), the lookup raises [KeyError] with that name:
    the error of an unknown function.  The loop cell ends with this
    exception, which so reaches whoever runs the cell. *)
Theorem unknown_function_raises
    (json_loads : string -> option pyval)
    (str : pyval -> exn + string)
    (s s1 : state) (done rest : list ToolCall) (tc : ToolCall) (args : pyval) :
  ns s !! "tool_calls" = Some (OToolCalls (done ++ tc :: rest)) ->
  for_each (map OToolCall done) (loop_body json_loads str) s = (inr tt, s1) ->
  json_loads (fn_arguments (tc_function tc)) = Some args ->
  fresh_name (fn_name (tc_function tc)) bound_before_dispatch = true ->
  ns s1 !! fn_name (tc_function tc) = None ->
  locals_lookup (fn_name (tc_function tc)) s1
  = (inl (KeyError (fn_name (tc_function tc))), s1)
  /\ fst (cell_tool_loop json_loads str s) = inl (KeyError (fn_name (tc_function tc))).
Proof.
  intros Htc Hdone Hargs Hfresh Hnone. split.
  - unfold locals_lookup. now rewrite Hnone.
  - rewrite (tool_loop_run json_loads str s _ Htc), map_app. simpl map.
    destruct (body_unknown json_loads str tc s1 args Hargs Hfresh Hnone) as (He & _).
    destruct (loop_body json_loads str (OToolCall tc) s1) as [r s2] eqn:Hb.
    simpl in He. subst r.
    now rewrite (for_each_raise _ _ _ _ _ _ _ _ Hdone Hb).
Qed.

(** C4.  The loop decodes the arguments string of a call with
    [json.loads].  When the loop has processed the requests before [tc]:
    if the arguments of [tc] are not valid JSON, the loop cell ends with
    [JSONDecodeError], the error of malformed arguments, and the turn ends
    there: no function is called, nothing is appended or sent, the
    requests after [tc] are not looked at, and only the names [tool] and
    [function_name] are rebound.  If they decode to a mapping, the
    iteration binds [function_args] to that mapping; if they decode to
    something else, the iteration raises as well. *)
Theorem arguments_decoding
    (json_loads : string -> option pyval)
    (str : pyval -> exn + string)
    (s s1 : state) (done rest : list ToolCall) (tc : ToolCall) :
  ns s !! "tool_calls" = Some (OToolCalls (done ++ tc :: rest)) ->
  for_each (map OToolCall done) (loop_body json_loads str) s = (inr tt, s1) ->
  let out := cell_tool_loop json_loads str s in
  let iteration := loop_body json_loads str (OToolCall tc) s1 in
  match json_loads (fn_arguments (tc_function tc)) with
  | None =>
      fst out = inl JSONDecodeError
      /\ heap (snd out) = heap s1
      /\ sent (snd out) = sent s1
      /\ history (snd out) = history s1
      /\ ns (snd out) = <["function_name" := OData (PStr (fn_name (tc_function tc)))]>
                          (<["tool" := OToolCall tc]> (ns s1))
  | Some (PDict kw) =>
      ns (snd iteration) !! "function_args" = Some (OData (PDict kw))
  | Some _ => exists e, fst iteration = inl e /\ fst out = inl e
  end.
Proof.
  intros Htc Hdone out iteration. subst out iteration.
  rewrite (tool_loop_run json_loads str s _ Htc), map_app. simpl map.
  destruct (json_loads (fn_arguments (tc_function tc))) as [args|] eqn:Hargs.
  - destruct args as [| | | | | |kw];
      try (destruct (body_not_a_mapping json_loads str tc s1 _ Hargs I) as (e & He);
           exists e; split; [exact He|];
           destruct (loop_body json_loads str (OToolCall tc) s1) as [r s2] eqn:Hb;
           simpl in He; subst r;
           now rewrite (for_each_raise _ _ _ _ _ _ _ _ Hdone Hb)).
    now apply body_binds_args.
  - rewrite (for_each_raise _ _ _ _ _ _ _ _ Hdone
               (body_decode_error json_loads str tc s1 Hargs)).
    unfold history, deref. proj. rewrite !lookup_insert_ne by discriminate.
    repeat split.
Qed.

(** C5.  When the loop has processed the requests before [tc] and the
    function name of [tc] has no implementation at that point, that is, it
    is bound to no callable, the loop cell raises: [JSONDecodeError] if the
    arguments did not even decode, else [KeyError] when the name is bound
    to nothing and [TypeError] when it is bound to something that cannot be
    called.  The history is the one the loop had reached before this
    request: no tool message is appended for it. *)
Theorem unknown_function_keeps_history
    (json_loads : string -> option pyval)
    (str : pyval -> exn + string)
    (s s1 : state) (done rest : list ToolCall) (tc : ToolCall) (h : list pyval) :
  ns s !! "tool_calls" = Some (OToolCalls (done ++ tc :: rest)) ->
  for_each (map OToolCall done) (loop_body json_loads str) s = (inr tt, s1) ->
  fresh_name (fn_name (tc_function tc)) bound_before_dispatch = true ->
  (forall f, ns s1 !! fn_name (tc_function tc) <> Some (OFun f)) ->
  history s1 = Some h ->
  let out := cell_tool_loop json_loads str s in
  fst out = inl (match json_loads (fn_arguments (tc_function tc)) with
                 | None => JSONDecodeError
                 | Some _ =>
                     match ns s1 !! fn_name (tc_function tc) with
                     | None => KeyError (fn_name (tc_function tc))
                     | Some _ => TypeError
                     end
                 end)
  /\ history (snd out) = Some h.
Proof.
  intros Htc Hdone Hfresh Hnone Hh out. subst out.
  rewrite (tool_loop_run json_loads str s _ Htc), map_app. simpl map.
  destruct (json_loads (fn_arguments (tc_function tc))) as [args|] eqn:Hargs.
  - assert (Hb : exists s2,
               loop_body json_loads str (OToolCall tc) s1
               = (inl (match ns s1 !! fn_name (tc_function tc) with
                       | None => KeyError (fn_name (tc_function tc))
                       | Some _ => TypeError
                       end), s2)
               /\ ns s2 !! "chat_history" = ns s1 !! "chat_history"
               /\ forall l h, heap s1 !! l = Some h -> heap s2 !! l = Some h).
    { destruct (ns s1 !! fn_name (tc_function tc)) as [o|] eqn:Ho.
      - destruct (body_not_callable json_loads str tc s1 args o Hargs Hfresh Ho)
          as (He & Hc & Hheap); [intros f ->; now destruct (Hnone f)|].
        destruct (loop_body json_loads str (OToolCall tc) s1) as [r s2].
        simpl in He, Hc, Hheap. subst r. eauto.
      - destruct (body_unknown json_loads str tc s1 args Hargs Hfresh Ho)
          as (He & _ & Hc & Hheap).
        destruct (loop_body json_loads str (OToolCall tc) s1) as [r s2].
        simpl in He, Hc, Hheap. subst r. eauto. }
    destruct Hb as (s2 & Hb & Hc & Hheap).
    rewrite (for_each_raise _ _ _ _ _ _ _ _ Hdone Hb). split; [reflexivity|].
    apply history_inv in Hh as (l & Hl & Hh).
    apply history_inv. exists l. simpl. rewrite Hc. auto.
  - rewrite (for_each_raise _ _ _ _ _ _ _ _ Hdone
               (body_decode_error json_loads str tc s1 Hargs)).
    split; [reflexivity|].
    unfold history, deref in *. proj. now rewrite !lookup_insert_ne by discriminate.
Qed.

(** ** A run that returns, cell by cell *)

Lemma bind_returns {A B} (m : M A) (k : A -> M B) s b s' :
  bind m k s = (inr b, s') ->
  exists a s1, m s = (inr a, s1) /\ k a s1 = (inr b, s').
Proof.
  unfold bind. destruct (m s) as [[e|a] s1]; [discriminate|]. eauto.
Qed.

Section Returns.

Variable json_loads : string -> option pyval.
Variable to_json : ChatCompletionMessage -> string.
Variable str : pyval -> exn + string.
Variable display_hook : nat -> gmap string object.

Lemma first_choice_returns x s ch s' :
  first_choice x s = (inr ch, s') ->
  s' = s /\ exists c rest, ns s !! x = Some (OCompletion c) /\ choices c = ch :: rest.
Proof.
  run. destruct (ns s !! x) as [[| | |c| |]|]; try discriminate.
  destruct (choices c) as [|ch' rest] eqn:Hch; [discriminate|].
  intros [= -> <-]. eauto.
Qed.


Lemma send_returns a1 s s1 n :
  ns s !! "messages" = Some (OList n) ->
  cell_send a1 s = (inr tt, s1) ->
  exists c1, a1 = inr c1
    /\ ns s1 !! "chat_history" = Some (OList n)
    /\ ns s1 !! "messages" = Some (OList n)
    /\ ns s1 !! "completion" = Some (OCompletion c1)
    /\ heap s1 = heap s.
Proof.
  intros Hm. unfold cell_send, create. run.
  rewrite Hm. proj. rewrite lookup_insert_eq. proj.
  rewrite lookup_insert_ne by discriminate.
  destruct (ns s !! "tools") as [[| lt | | | |]|]; proj; try discriminate.
  destruct a1 as [e|c1]; proj; [discriminate|].
  intros [= <-]. exists c1. proj.
  repeat split; lookups; auto.
Qed.

Lemma append_answer_returns x s s' n :
  ns s !! "chat_history" = Some (OList n) ->
  append_answer json_loads to_json x s = (inr tt, s') ->
  exists c ch rest v,
    ns s !! x = Some (OCompletion c)
    /\ choices c = ch :: rest
    /\ json_loads (to_json (choice_message ch)) = Some v
    /\ s' = set_heap (alter (fun h => h ++ [v]) n) s.
Proof.
  intros Hc. unfold append_answer. run. rewrite Hc. proj.
  destruct (ns s !! x) as [[| | |c| |]|]; try discriminate.
  destruct (choices c) as [|ch rest] eqn:Hch; [discriminate|]. proj.
  destruct (json_loads (to_json (choice_message ch))) as [v|] eqn:Hv;
    [|discriminate].
  intros [= <-]. exists c, ch, rest, v. auto.
Qed.

Lemma inspect_returns s s' :
  cell_inspect s = (inr tt, s') ->
  exists c ch rest tc tcs,
    ns s !! "completion" = Some (OCompletion c)
    /\ choices c = ch :: rest
    /\ msg_tool_calls (choice_message ch) = Some (tc :: tcs)
    /\ s' = set_ns (fun m => <["tool_calls" := OToolCalls (tc :: tcs)]>
                               (<["finish_reason" := OData (PStr (finish_reason ch))]> m)) s.
Proof.
  unfold cell_inspect. run.
  destruct (ns s !! "completion") as [[| | |c| |]|] eqn:Hc; try discriminate.
  destruct (choices c) as [|ch rest] eqn:Hch; [discriminate|]. proj.
  rewrite lookup_insert_ne by discriminate. rewrite Hc, Hch. proj.
  destruct (msg_tool_calls (choice_message ch)) as [[|tc tcs]|] eqn:Ht;
    try discriminate.
  intros [= <-]. exists c, ch, rest, tc, tcs. auto.
Qed.

Lemma resend_returns a2 s s' n h :
  ns s !! "chat_history" = Some (OList n) ->
  heap s !! n = Some h ->
  cell_resend a2 s = (inr tt, s') ->
  exists c2 rq,
    a2 = inr c2
    /\ ns s' = <["response_2" := OCompletion c2]> (ns s)
    /\ heap s' = heap s
    /\ sent s' = sent s ++ [rq]
    /\ rq_messages rq = h.
Proof.
  intros Hc Hh. unfold cell_resend, create. run. rewrite Hc. proj.
  destruct (ns s !! "tools") as [[| lt | | | |]|]; proj; try discriminate.
  destruct a2 as [e|c2]; proj; [discriminate|].
  intros [= <-]. exists c2. eexists. proj. rewrite Hh. repeat split.
Qed.

Lemma print_returns x s s' :
  (_ <- first_choice x ;; ret tt) s = (inr tt, s') -> s' = s.
Proof.
  intros H. apply bind_returns in H as (ch & s1 & H1 & H2).
  apply first_choice_returns in H1 as [-> _]. now injection H2.
Qed.

Lemma print_final_returns s s' : cell_print_final s = (inr tt, s') -> s' = s.
Proof.
  unfold cell_print_final. intros H.
  apply bind_returns in H as (ch & s1 & H1 & H2).
  apply first_choice_returns in H1 as [-> _].
  now apply print_returns in H2.
Qed.

Lemma continue_returns a3 s s' n h :
  ns s !! "chat_history" = Some (OList n) ->
  heap s !! n = Some h ->
  cell_continue json_loads to_json a3 s = (inr tt, s') ->
  exists c ch rest v,
    ns s !! "response_2" = Some (OCompletion c)
    /\ choices c = ch :: rest
    /\ json_loads (to_json (choice_message ch)) = Some v
    /\ heap s' !! n = Some (h ++ [v; new_user_turn])
    /\ ns s' !! "chat_history" = Some (OList n)
    /\ ns s' !! "messages" = ns s !! "messages".
Proof.
  intros Hc Hh. unfold cell_continue. intros H.
  apply bind_returns in H as ([] & s1 & H1 & H).
  destruct (append_answer_returns _ _ _ _ Hc H1) as (c & ch & rest & v & Hr & Hch & Hv & ->).
  exists c, ch, rest, v. repeat (split; [assumption|]).
  revert H. unfold create. run. rewrite Hc. proj. rewrite Hc. proj.
  destruct (ns s !! "tools") as [[| lt | | | |]|]; proj; try discriminate.
  destruct a3 as [e|c3]; proj; [discriminate|].
  rewrite lookup_insert_eq. destruct (choices c3); [discriminate|].
  intros [= <-]. proj. rewrite !lookup_insert_ne by discriminate.
  repeat split; try assumption.
  rewrite !list_lookup_alter_eq, Hh. simpl. now rewrite <- app_assoc.
Qed.

End Returns.

Section RoundTrip.

Variable json_loads : string -> option pyval.
Variable to_json : ChatCompletionMessage -> string.
Variable str : pyval -> exn + string.
Variable display_hook : nat -> gmap string object.

Lemma record_call_returns s s' n :
  ns s !! "chat_history" = Some (OList n) ->
  cell_record_call json_loads to_json display_hook s = (inr tt, s') ->
  exists c ch rest v,
    ns s !! "completion" = Some (OCompletion c)
    /\ choices c = ch :: rest
    /\ json_loads (to_json (choice_message ch)) = Some v
    /\ s' = set_ns (pushed (display_hook 19))
              (set_heap (alter (fun h => h ++ [v]) n) s).
Proof.
  intros Hc H. unfold cell_record_call in H.
  apply bind_returns in H as ([] & s1 & H1 & H).
  destruct (append_answer_returns _ _ _ _ _ _ Hc H1)
    as (c & ch & rest & v & ? & ? & ? & ->).
  exists c, ch, rest, v. repeat (split; [assumption|]).
  revert H. unfold display, push. run. rewrite Hc. now intros [= <-].
Qed.

(** A round trip that returns: the two answers were recorded, every
    requested call was answered, and the list, still bound to both
    names, holds the whole conversation in order. *)
Lemma round_trip_returns a1 a2 a3 s s' n h0 :
  ns s !! "messages" = Some (OList n) ->
  heap s !! n = Some h0 ->
  round_trip json_loads to_json str display_hook a1 a2 a3 s = (inr tt, s') ->
  exists c1 ch1 rest1 v1 tc tcs ms c2 ch2 rest2 v2,
    a1 = inr c1 /\ choices c1 = ch1 :: rest1
    /\ json_loads (to_json (choice_message ch1)) = Some v1
    /\ msg_tool_calls (choice_message ch1) = Some (tc :: tcs)
    /\ answered (tc :: tcs) ms
    /\ a2 = inr c2 /\ choices c2 = ch2 :: rest2
    /\ json_loads (to_json (choice_message ch2)) = Some v2
    /\ ns s' !! "chat_history" = Some (OList n)
    /\ ns s' !! "messages" = Some (OList n)
    /\ heap s' !! n = Some (h0 ++ [v1] ++ ms ++ [v2; new_user_turn]).
Proof.
  intros Hm Hh H. unfold round_trip in H.
  apply bind_returns in H as ([] & s1 & H1 & H).
  destruct (send_returns _ _ _ _ Hm H1) as (c1 & -> & Hc1 & Hm1 & Hcompl1 & Hheap1).
  apply bind_returns in H as ([] & s1' & Hp & H).
  apply print_returns in Hp as ->.
  apply bind_returns in H as ([] & s2 & H2 & H).
  destruct (record_call_returns _ _ _ Hc1 H2)
    as (c & ch1 & rest1 & v1 & Hc & Hch1 & Hv1 & ->).
  rewrite Hcompl1 in Hc. injection Hc as <-.
  apply bind_returns in H as ([] & s3 & H3 & H).
  destruct (inspect_returns _ _ H3) as (c & ch & rest & tc & tcs & Hc & Hch & Htcs & ->).
  cbn [ns set_ns set_heap] in Hc. rewrite pushed_lookup in Hc by reflexivity.
  rewrite Hcompl1 in Hc. injection Hc as <-.
  rewrite Hch1 in Hch. injection Hch as <- <-.
  apply bind_returns in H as ([] & s4 & H4 & H).
  match type of H4 with cell_tool_loop _ _ ?st = _ => set (s3 := st) in * end.
  assert (Hc3 : ns s3 !! "chat_history" = Some (OList n)).
  { subst s3. proj. now lookups. }
  assert (Hh3 : heap s3 !! n = Some (h0 ++ [v1])).
  { subst s3. proj. now rewrite list_lookup_alter_eq, Hheap1, Hh. }
  assert (Hm3 : ns s3 !! "messages" = Some (OList n)).
  { subst s3. proj. now lookups. }
  assert (Ht3 : ns s3 !! "tool_calls" = Some (OToolCalls (tc :: tcs))).
  { subst s3. proj. now lookups. }
  clearbody s3.
  pose proof (grows_tool_loop json_loads str n s3) as (_ & Hm4 & _).
  rewrite H4 in Hm4. cbn [snd] in Hm4. rewrite Hm3 in Hm4.
  rewrite (tool_loop_run json_loads str s3 (tc :: tcs) Ht3) in H4.
  destruct (loop_returns json_loads str _ _ _ _ _ Hc3 Hh3 H4) as (ms & Hms & Hh4 & Hc4 & _).
  apply bind_returns in H as ([] & s5 & H5 & H).
  apply show_returns in H5 as ->.
  match type of H with bind (cell_resend _) _ ?st = _ => set (s5 := st) in * end.
  assert (Hc5 : ns s5 !! "chat_history" = Some (OList n)).
  { subst s5. proj. now lookups. }
  assert (Hm5 : ns s5 !! "messages" = Some (OList n)).
  { subst s5. proj. now lookups. }
  assert (Hh5 : heap s5 !! n = Some ((h0 ++ [v1]) ++ ms)) by exact Hh4.
  clearbody s5.
  apply bind_returns in H as ([] & s6 & H6 & H).
  destruct (resend_returns _ _ _ _ _ Hc5 Hh5 H6) as (c2 & rq & -> & Hns6 & Hheap6 & _).
  apply bind_returns in H as ([] & s7 & H7 & H).
  apply print_final_returns in H7 as ->.
  assert (Hc6 : ns s6 !! "chat_history" = Some (OList n)).
  { rewrite Hns6. now lookups. }
  assert (Hh6 : heap s6 !! n = Some (h0 ++ [v1] ++ ms)).
  { rewrite Hheap6, Hh5. now rewrite <- app_assoc. }
  destruct (continue_returns json_loads to_json _ _ _ _ _ Hc6 Hh6 H)
    as (c & ch2 & rest2 & v2 & Hr2 & Hch2 & Hv2 & Hh' & Hc' & Hm').
  rewrite Hns6, lookup_insert_eq in Hr2. injection Hr2 as <-.
  exists c1, ch1, rest1, v1, tc, tcs, ms, c2, ch2, rest2, v2.
  repeat (split; [assumption || reflexivity|]).
  split; [|now rewrite Hh', <- !app_assoc].
  rewrite Hm', Hns6. now lookups.
Qed.

End RoundTrip.

(** ** The shape of the messages *)

(** C6, as the code has it.  An iteration of the loop that returns, from
    the history [h], was for a tool call [tc] whose arguments decoded to a
    mapping [kw] and whose name was bound to a callable [f] that returned
    [r] on [kw]; it appended exactly one message,
    [{role: "tool", type: "function_call_output", tool_call_id, content}],
    with the id of [tc] and, as content, the text [str] returned for [r]:
    the shape of the specification and the key [type]. *)
Theorem tool_result_message_shape
    (json_loads : string -> option pyval)
    (str : pyval -> exn + string)
    (tool : object) (s s' : state) (l : loc) (h : list pyval) :
  ns s !! "chat_history" = Some (OList l) ->
  heap s !! l = Some h ->
  loop_body json_loads str tool s = (inr tt, s') ->
  exists tc kw f r content,
    tool = OToolCall tc
    /\ json_loads (fn_arguments (tc_function tc)) = Some (PDict kw)
    /\ namespace_at_dispatch tc (OData (PDict kw)) (ns s) !! fn_name (tc_function tc)
       = Some (OFun f)
    /\ f kw = inr r
    /\ str r = inr content
    /\ history s'
       = Some (h ++ [PDict [("role", PStr "tool");
                            ("type", PStr "function_call_output");
                            ("tool_call_id", PStr (tc_id tc));
                            ("content", PStr content)]])
    /\ tool_result_shape (tc_id tc) (tool_message (tc_id tc) content) = true.
Proof.
  intros Hc Hh Hb.
  destruct (body_returns json_loads str tool s s' l h Hc Hh Hb)
    as (tc & kw & f & r & content & -> & Hkw & Hf & Hr & Hs & Hh' & Hc' & _).
  exists tc, kw, f, r, content. repeat (split; [assumption || reflexivity|]). split.
  - apply history_inv. exists l. auto.
  - unfold tool_result_shape, answers. simpl. now rewrite String.eqb_refl.
Qed.


(** ** The stub *)

(** C9.  [get_weather] returns [{"temperature": 25, "condition": "sunny"}]
    for every location; two calls with any two locations return equal
    values, also when the function is called by keyword as the dispatch
    does. *)
Theorem get_weather_constant (location location' : pyval) :
  get_weather location = PDict [("temperature", PInt 25); ("condition", PStr "sunny")]
  /\ get_weather location = get_weather location'
  /\ get_weather_kw [("location", location)] = get_weather_kw [("location", location')]
  /\ get_weather_kw [("location", location)]
     = inr (PDict [("temperature", PInt 25); ("condition", PStr "sunny")]).
Proof. repeat split. Qed.

(** ** One list under two names *)

Lemma send_binds_alias a1 s n :
  ns s !! "messages" = Some (OList n) ->
  ns (snd (cell_send a1 s)) !! "chat_history" = Some (OList n)
  /\ ns (snd (cell_send a1 s)) !! "messages" = Some (OList n)
  /\ heap (snd (cell_send a1 s)) = heap s.
Proof.
  intros Hm. unfold cell_send, create. run. rewrite Hm. proj.
  rewrite lookup_insert_eq. proj. rewrite lookup_insert_ne by discriminate.
  destruct (ns s !! "tools") as [[| lt | | | |]|]; proj;
    try solve [repeat split; lookups; auto].
  destruct a1; proj; repeat split; lookups; auto.
Qed.

(** C10.  [chat_history = messages] binds the second name to the list
    object of the first.  From a state in which [messages] names the list
    [h0], the round trip ends, returning or raising, with both names bound
    to that same object, so the two names read the same list: [h0]
    followed by everything appended through [chat_history].  When the
    round trip returns these are the recorded tool-call message, the tool
    messages, the recorded final answer and the new user turn, all of them
    now in [messages]. *)
Theorem chat_history_aliases_messages
    (json_loads : string -> option pyval) (to_json : ChatCompletionMessage -> string)
    (str : pyval -> exn + string) (display_hook : nat -> gmap string object)
    (a1 a2 a3 : exn + ChatCompletion) (s : state) (n : loc) (h0 : list pyval) :
  ns s !! "messages" = Some (OList n) ->
  heap s !! n = Some h0 ->
  let out := round_trip json_loads to_json str display_hook a1 a2 a3 s in
  ns (snd out) !! "chat_history" = Some (OList n)
  /\ ns (snd out) !! "messages" = Some (OList n)
  /\ exists added,
      deref "messages" (snd out) = Some (h0 ++ added)
      /\ history (snd out) = Some (h0 ++ added)
      /\ (fst out = inr tt ->
          exists v1 ms v2, added = [v1] ++ ms ++ [v2; new_user_turn]).
Proof.
  intros Hm Hh out.
  assert (Hall : ns (snd out) !! "chat_history" = Some (OList n)
                 /\ ns (snd out) !! "messages" = Some (OList n)
                 /\ exists added, heap (snd out) !! n = Some (h0 ++ added)).
  { subst out. unfold round_trip.
    destruct (send_binds_alias a1 s n Hm) as (Hc1 & Hm1 & Hheap1).
    destruct (cell_send a1 s) as [[e|[]] s1] eqn:Hsend; simpl in Hc1, Hm1, Hheap1.
    - rewrite (bind_inl _ _ _ _ _ Hsend). simpl.
      repeat split; auto. exists []. now rewrite app_nil_r, Hheap1.
    - rewrite (bind_inr _ _ _ _ _ Hsend).
      pose proof (grows_after_send json_loads to_json str display_hook n a2 a3 s1)
        as (Hc & Hm' & added & Ha).
      rewrite Hc, Hm'. repeat split; auto.
      exists added. apply Ha. now rewrite Hheap1. }
  destruct Hall as (Hc & Hm' & added & Ha).
  repeat split; auto. exists added.
  unfold history, deref. rewrite Hc, Hm'. repeat split; auto.
  intros Hret.
  assert (Hrun : round_trip json_loads to_json str display_hook a1 a2 a3 s
                 = (inr tt, snd out)).
  { subst out. destruct (round_trip json_loads to_json str display_hook a1 a2 a3 s) as [r s'].
    simpl in *. now subst r. }
  destruct (round_trip_returns json_loads to_json str display_hook _ _ _ _ _ _ _ Hm Hh Hrun)
    as (_ & _ & _ & v1 & _ & _ & ms & _ & _ & _ & v2 & _ & _ & _ & _ & _ & _ & _ & _
        & _ & _ & Hh').
  rewrite Ha in Hh'. injection Hh' as Hh'. apply app_inv_head in Hh'.
  now exists v1, ms, v2.
Qed.

(** ** The recorded exchange as an instance *)

(** The notebook's own run: the history it displays after the tool loop,
    and the one it ends with. *)
Example recorded_run_returns : fst Recorded.run = inr tt.
Proof. vm_compute. reflexivity. Qed.

Example recorded_history_before_resend :
  history (snd (cell_tool_loop Json.loads Py.str Recorded.before_loop))
  = Some (initial_messages
          ++ [Recorded.recorded_calls [Recorded.call_1];
              tool_message "call_A0GbXBeZGkAR1ooDoMKQCPcs" Recorded.weather]).
Proof. vm_compute. reflexivity. Qed.

Example recorded_tool_message_content :
  Py.str (get_weather (PStr "Sydney")) = inr Recorded.weather
  /\ field "content" (tool_message "call_A0GbXBeZGkAR1ooDoMKQCPcs" Recorded.weather)
     = Some (PStr "{'temperature': 25, 'condition': 'sunny'}").
Proof. vm_compute. split; reflexivity. Qed.

(** The three outputs of the recorded run, as the kernel keeps them. *)
Example recorded_outputs :
  ns (snd Recorded.run) !! "_19" = Some (OList 0)
  /\ ns (snd Recorded.run) !! "_22" = Some (OData (PStr Recorded.weather))
  /\ ns (snd Recorded.run) !! "_23" = Some (OList 0)
  /\ ns (snd Recorded.run) !! "_" = Some (OList 0)
  /\ deref "_" (snd Recorded.run) = history (snd Recorded.run).
Proof. vm_compute. repeat split. Qed.

Lemma one_registered_tool_call_witness :
  fst ((cell_record_call Json.loads Json.to_json Recorded.hook >> cell_inspect >>
        cell_tool_loop Json.loads Py.str) Recorded.after_send) = inr tt
  /\ history (snd ((cell_record_call Json.loads Json.to_json Recorded.hook >> cell_inspect >>
                    cell_tool_loop Json.loads Py.str) Recorded.after_send))
     = Some (initial_messages
             ++ [Recorded.recorded_calls [Recorded.call_1];
                 tool_message (tc_id Recorded.call_1) Recorded.weather]).
Proof.
  destruct (one_registered_tool_call Json.loads Json.to_json Py.str Recorded.hook
              Recorded.after_send
              {| choices := [Recorded.tool_choice [Recorded.call_1]] |}
              (Recorded.tool_choice [Recorded.call_1]) [] Recorded.call_1
              (Recorded.recorded_calls [Recorded.call_1])
              [("location", PStr "Sydney")] get_weather_kw (get_weather (PStr "Sydney"))
              Recorded.weather 0 initial_messages)
    as (H1 & H2 & _); try (vm_compute; reflexivity).
  split; [exact H1|exact H2].
Defined.

(** C1, as the specification words it, fails on a request the model can
    make: [get_weather] is registered, the answer carries exactly one tool
    call for it, and its arguments decode to the mapping [{"city":
    "Sydney"}]; the call by keyword raises [TypeError], the loop cell ends
    with it, and no tool message is appended to the history. *)
Lemma registered_call_can_raise :
  ns (Recorded.after_send_of [Replay.city_call]) !! "get_weather" = Some get_weather_obj
  /\ Json.loads (fn_arguments (tc_function Replay.city_call))
     = Some (PDict [("city", PStr "Sydney")])
  /\ fst ((cell_record_call Json.loads Json.to_json Recorded.hook >> cell_inspect >>
           cell_tool_loop Json.loads Py.str) (Recorded.after_send_of [Replay.city_call]))
     = inl TypeError
  /\ history (snd ((cell_record_call Json.loads Json.to_json Recorded.hook >>
                    cell_inspect >> cell_tool_loop Json.loads Py.str)
                     (Recorded.after_send_of [Replay.city_call])))
     = Some (initial_messages ++ [Recorded.recorded_calls [Replay.city_call]])
  /\ count_answers (tc_id Replay.city_call)
       (initial_messages ++ [Recorded.recorded_calls [Replay.city_call]]) = 0.
Proof. vm_compute. repeat split. Qed.

Lemma every_request_answered_witness :
  exists ms,
    answered [Recorded.call_1] ms
    /\ (forall i, count_answers i ms = count_requests i [Recorded.call_1])
    /\ history (snd ((cell_tool_loop Json.loads Py.str >> cell_show Py.str Recorded.hook >>
                      cell_resend Recorded.answer_2) Recorded.before_loop))
       = Some ((initial_messages ++ [Recorded.recorded_calls [Recorded.call_1]]) ++ ms)
    /\ exists rq,
        sent (snd ((cell_tool_loop Json.loads Py.str >> cell_show Py.str Recorded.hook >>
                    cell_resend Recorded.answer_2) Recorded.before_loop))
        = sent Recorded.before_loop ++ [rq]
        /\ rq_messages rq
           = (initial_messages ++ [Recorded.recorded_calls [Recorded.call_1]]) ++ ms.
Proof.
  apply (every_request_answered Json.loads Py.str Recorded.hook Recorded.answer_2
           Recorded.before_loop
           [Recorded.call_1] 0
           (initial_messages ++ [Recorded.recorded_calls [Recorded.call_1]]));
    try (vm_compute; reflexivity).
  vm_compute. intros H. discriminate H.
Defined.

Lemma unknown_function_raises_witness :
  fst (cell_tool_loop Json.loads Py.str
         (Recorded.before_loop_of [Recorded.call_1; Recorded.unknown_call]))
  = inl (KeyError "get_time").
Proof.
  apply (unknown_function_raises Json.loads Py.str
           (Recorded.before_loop_of [Recorded.call_1; Recorded.unknown_call])
           (Recorded.after_first_call [Recorded.call_1; Recorded.unknown_call])
           [Recorded.call_1] [] Recorded.unknown_call
           (PDict [("city", PStr "Sydney")]));
    vm_compute; reflexivity.
Defined.

Lemma arguments_decoding_witness :
  fst (cell_tool_loop Json.loads Py.str
         (Recorded.before_loop_of [Recorded.call_1; Recorded.malformed_call]))
  = inl JSONDecodeError
  /\ history (snd (cell_tool_loop Json.loads Py.str
                     (Recorded.before_loop_of [Recorded.call_1; Recorded.malformed_call])))
     = history (Recorded.after_first_call [Recorded.call_1; Recorded.malformed_call]).
Proof.
  assert (H := arguments_decoding Json.loads Py.str
                 (Recorded.before_loop_of [Recorded.call_1; Recorded.malformed_call])
                 (Recorded.after_first_call [Recorded.call_1; Recorded.malformed_call])
                 [Recorded.call_1] [] Recorded.malformed_call).
  assert (E : Json.loads (fn_arguments (tc_function Recorded.malformed_call)) = None)
    by (vm_compute; reflexivity).
  cbv zeta in H. rewrite E in H.
  destruct H as (H1 & _ & _ & H2 & _); try (vm_compute; reflexivity).
  split; [exact H1|exact H2].
Defined.

Lemma unknown_function_keeps_history_witness :
  fst (cell_tool_loop Json.loads Py.str
         (Recorded.before_loop_of [Recorded.call_1; Recorded.unknown_call]))
  = inl (KeyError "get_time")
  /\ history (snd (cell_tool_loop Json.loads Py.str
                     (Recorded.before_loop_of [Recorded.call_1; Recorded.unknown_call])))
     = Some (initial_messages
             ++ [Recorded.recorded_calls [Recorded.call_1; Recorded.unknown_call];
                 tool_message (tc_id Recorded.call_1) Recorded.weather]).
Proof.
  apply (unknown_function_keeps_history Json.loads Py.str
           (Recorded.before_loop_of [Recorded.call_1; Recorded.unknown_call])
           (Recorded.after_first_call [Recorded.call_1; Recorded.unknown_call])
           [Recorded.call_1] [] Recorded.unknown_call);
    try (vm_compute; reflexivity).
  intros f. vm_compute. discriminate.
Defined.

Lemma tool_result_message_shape_witness :
  exists tc r content,
    Py.str r = inr content
    /\ history (Recorded.after_first_call [Recorded.call_1])
       = Some ((initial_messages ++ [Recorded.recorded_calls [Recorded.call_1]])
               ++ [PDict [("role", PStr "tool");
                          ("type", PStr "function_call_output");
                          ("tool_call_id", PStr (tc_id tc));
                          ("content", PStr content)]])
    /\ tool_result_shape (tc_id tc) (tool_message (tc_id tc) content) = true.
Proof.
  destruct (tool_result_message_shape Json.loads Py.str (OToolCall Recorded.call_1)
              Recorded.before_loop (Recorded.after_first_call [Recorded.call_1]) 0
              (initial_messages ++ [Recorded.recorded_calls [Recorded.call_1]]))
    as (tc & kw & f & r & content & _ & _ & _ & _ & H0 & H1 & H2);
    try (vm_compute; reflexivity).
  exists tc, r, content. split; [exact H0|]. split; [exact H1|exact H2].
Defined.

(** C6, as the specification words it, fails on the recorded exchange: the
    message the loop appends for the recorded call has the key [type]
    besides the three of the fixed shape. *)
Lemma tool_message_has_type_key :
  history (snd (cell_tool_loop Json.loads Py.str Recorded.before_loop))
  = Some (initial_messages
          ++ [Recorded.recorded_calls [Recorded.call_1];
              tool_message (tc_id Recorded.call_1) Recorded.weather])
  /\ spec_tool_result_shape (tc_id Recorded.call_1)
       (tool_message (tc_id Recorded.call_1) Recorded.weather) = false
  /\ field "type" (tool_message (tc_id Recorded.call_1) Recorded.weather)
     = Some (PStr "function_call_output").
Proof. vm_compute. repeat split. Qed.

Lemma history_append_only_witness :
  (exists added,
      history (snd (cell_tool_loop Json.loads Py.str Recorded.before_loop))
      = Some ((initial_messages ++ [Recorded.recorded_calls [Recorded.call_1]]) ++ added))
  /\ (exists added,
      history (snd (append "chat_history" (message (PStr "user") (PStr "thanks"))
                      Recorded.before_loop))
      = Some ((initial_messages ++ [Recorded.recorded_calls [Recorded.call_1]]) ++ added)).
Proof.
  destruct (history_append_only Json.loads Json.to_json Py.str Recorded.hook (PStr "thanks")
              Recorded.answer_2 Recorded.answer_3 Recorded.before_loop
              (initial_messages ++ [Recorded.recorded_calls [Recorded.call_1]]))
    as (_ & H2 & _ & H4 & _); [vm_compute; reflexivity|].
  split; [exact H2|exact H4].
Defined.



Lemma chat_history_aliases_messages_witness :
  exists added,
    deref "messages"
      (snd (round_trip Json.loads Json.to_json Py.str Recorded.hook Recorded.answer_1
              Recorded.answer_2 Recorded.answer_3 Recorded.after_setup))
    = Some (initial_messages ++ added)
    /\ history
         (snd (round_trip Json.loads Json.to_json Py.str Recorded.hook Recorded.answer_1
                 Recorded.answer_2 Recorded.answer_3 Recorded.after_setup))
       = Some (initial_messages ++ added).
Proof.
  destruct (chat_history_aliases_messages Json.loads Json.to_json Py.str Recorded.hook
              Recorded.answer_1 Recorded.answer_2 Recorded.answer_3
              Recorded.after_setup 0 initial_messages)
    as (_ & _ & added & H1 & H2 & _); try (vm_compute; reflexivity).
  exists added. split; [exact H1|exact H2].
Defined.

(** The list named [messages] at the end of the recorded run: six entries,
    the two it was created with and the four appended through
    [chat_history]. *)
Example recorded_messages_at_the_end :
  deref "messages" (snd Recorded.run)
  = Some (initial_messages
          ++ [Recorded.recorded_calls [Recorded.call_1];
              tool_message (tc_id Recorded.call_1) Recorded.weather;
              PDict [("content",
                      PStr "The weather in Sydney today is sunny with a temperature of 25°C.");
                     ("refusal", PNone); ("role", PStr "assistant")];
              new_user_turn]).
Proof. vm_compute. reflexivity. Qed.

(** * Further properties of the cells *)

(** ** An iteration that raises *)

Section Raising.

Variable json_loads : string -> option pyval.
Variable str : pyval -> exn + string.

(** Whatever makes an iteration raise, it raises before its last
    statement, the append: the history and the log of requests are as they
    were. *)
Lemma body_raises tool s e s2 l h :
  ns s !! "chat_history" = Some (OList l) ->
  heap s !! l = Some h ->
  loop_body json_loads str tool s = (inl e, s2) ->
  ns s2 !! "chat_history" = Some (OList l)
  /\ heap s2 !! l = Some h
  /\ sent s2 = sent s.
Proof.
  intros Hc Hh Hb.
  pose proof (quiet_loop_body json_loads str tool s) as Hq.
  pose proof (grows_loop_body json_loads str l tool s) as (Hc' & _).
  rewrite Hb in Hq, Hc'. cbn [snd] in Hq, Hc'. red in Hq.
  rewrite Hc in Hc'. split; [exact Hc'|]. split; [|exact Hq].
  revert Hb. unfold loop_body. run.
  destruct tool as [| | | | |tc]; try (intros [= _ <-]; exact Hh).
  destruct (json_loads (fn_arguments (tc_function tc))) as [args|];
    [|intros [= _ <-]; exact Hh].
  destruct args as [| | | | | |kw]; run; fold_dispatch;
    try (destruct (_ !! fn_name (tc_function tc)); intros [= _ <-]; proj;
         solve [exact Hh | now apply lookup_app_l_Some]).
  destruct (namespace_at_dispatch _ _ _ !! _) as [[| |f| | |]|];
    try (intros [= _ <-]; exact Hh).
  destruct (f kw) as [e'|r]; [intros [= _ <-]; exact Hh|].
  destruct (str r) as [e'|content].
  - destruct r; proj; intros [= _ <-]; proj;
      solve [exact Hh | now apply lookup_app_l_Some].
  - destruct r; proj; rewrite ?lookup_insert_ne by discriminate; rewrite Hc;
      discriminate.
Qed.

End Raising.

Section Serving.

Variable json_loads : string -> option pyval.
Variable str : pyval -> exn + string.

Lemma body_callable_raises tc s kw f e :
  json_loads (fn_arguments (tc_function tc)) = Some (PDict kw) ->
  fresh_name (fn_name (tc_function tc)) bound_before_dispatch = true ->
  ns s !! fn_name (tc_function tc) = Some (OFun f) ->
  f kw = inl e ->
  fst (loop_body json_loads str (OToolCall tc) s) = inl e.
Proof.
  intros Hargs Hfresh Hf He. unfold loop_body. run. rewrite Hargs. run.
  fold_dispatch. rewrite dispatch_namespace, Hf by assumption. now rewrite He.
Qed.

Lemma served_agree m m' tc r :
  (forall x, fresh_name x scratch_names = true -> m' !! x = m !! x) ->
  served json_loads str m tc r -> served json_loads str m' tc r.
Proof.
  intros Hm (Hfresh & f & kw & v & Hf & Hkw & Hv & Hr). split; [exact Hfresh|].
  exists f, kw, v. rewrite (Hm _ Hfresh). auto.
Qed.

Lemma loop_serves tcs : forall rs s l h,
  Forall2 (served json_loads str (ns s)) tcs rs ->
  ns s !! "chat_history" = Some (OList l) ->
  heap s !! l = Some h ->
  exists s',
    for_each (map OToolCall tcs) (loop_body json_loads str) s = (inr tt, s')
    /\ ns s' !! "chat_history" = Some (OList l)
    /\ heap s' !! l = Some (h ++ tool_messages tcs rs)
    /\ sent s' = sent s.
Proof.
  induction tcs as [|tc tcs IH]; intros rs s l h Hall Hc Hh.
  - inversion Hall; subst. exists s. simpl. rewrite app_nil_r. auto.
  - inversion Hall as [|? r ? rs' Hserved Hrest]; subst. simpl map. simpl for_each.
    destruct Hserved as (Hfresh & f & kw & v & Hf & Hkw & Hv & Hr).
    destruct (fresh_scratch _ Hfresh) as (_ & _ & Hfresh' & _).
    destruct (body_success json_loads str tc s kw f v r l h Hkw Hfresh' Hf Hv Hr Hc Hh)
      as (Hret & Hhist & _ & Hsent).
    pose proof (grows_loop_body json_loads str l (OToolCall tc) s) as (Hc1 & _).
    destruct (loop_body json_loads str (OToolCall tc) s) as [[e|[]] s1] eqn:Hb;
      simpl in Hret, Hhist, Hsent, Hc1; [discriminate|].
    rewrite Hc in Hc1.
    assert (Hh1 : heap s1 !! l = Some (h ++ [tool_message (tc_id tc) r])).
    { unfold history, deref in Hhist. now rewrite Hc1 in Hhist. }
    assert (Hrest1 : Forall2 (served json_loads str (ns s1)) tcs rs').
    { eapply Forall2_impl; [exact Hrest|]. intros tc' r'.
      apply served_agree. intros x Hx.
      pose proof (keeps_loop_body json_loads str x (OToolCall tc) Hx s) as Hk.
      now rewrite Hb in Hk. }
    destruct (IH rs' s1 l _ Hrest1 Hc1 Hh1) as (s' & Hrun & Hc' & Hh' & Hs').
    exists s'. rewrite (bind_inr _ _ _ _ _ Hb).
    rewrite <- app_assoc in Hh'. repeat split; auto. congruence.
Qed.

(** Every run of the loop, returning or raising, has answered the first
    [k] requests and only them. *)
Lemma loop_answers_prefix tcs : forall s l h,
  ns s !! "chat_history" = Some (OList l) ->
  heap s !! l = Some h ->
  exists k ms,
    answered (take k tcs) ms
    /\ heap (snd (for_each (map OToolCall tcs) (loop_body json_loads str) s)) !! l
       = Some (h ++ ms)
    /\ ns (snd (for_each (map OToolCall tcs) (loop_body json_loads str) s)) !! "chat_history"
       = Some (OList l)
    /\ sent (snd (for_each (map OToolCall tcs) (loop_body json_loads str) s)) = sent s
    /\ match fst (for_each (map OToolCall tcs) (loop_body json_loads str) s) with
       | inr _ => k = length tcs
       | inl _ => k < length tcs
       end.
Proof.
  induction tcs as [|tc tcs IH]; intros s l h Hc Hh.
  - exists 0, []. simpl. rewrite app_nil_r. repeat split; auto. constructor.
  - simpl map. simpl for_each.
    destruct (loop_body json_loads str (OToolCall tc) s) as [[e|[]] s1] eqn:Hb.
    + rewrite (bind_inl _ _ _ _ _ Hb).
      destruct (body_raises json_loads str _ _ _ _ _ _ Hc Hh Hb) as (Hc1 & Hh1 & Hs1).
      exists 0, []. simpl. rewrite app_nil_r.
      repeat split; auto; [constructor|lia].
    + rewrite (bind_inr _ _ _ _ _ Hb).
      destruct (body_returns json_loads str _ _ _ _ _ Hc Hh Hb)
        as (tc' & kw & f & _ & r & [= <-] & _ & _ & _ & _ & Hh1 & Hc1 & Hs1).
      destruct (IH s1 l _ Hc1 Hh1) as (k & ms & Hms & Hh' & Hc' & Hs' & Hk).
      exists (S k), (tool_message (tc_id tc) r :: ms). simpl.
      rewrite <- app_assoc in Hh'. repeat split; auto.
      * constructor; eauto.
      * congruence.
      * destruct (fst (for_each (map OToolCall tcs) (loop_body json_loads str) s1));
          lia.
Qed.

End Serving.

(** ** The loop on several requests *)

(** X1.  The loop on a list of requests that can all be served from the
    namespace the loop starts in: it returns, and appends the tool
    messages of the requests, in their order, each with the text [str]
    returns for the result of its own call.  What a function name is
    bound to when the loop starts is what every iteration dispatches to,
    and no request is sent. *)
Theorem loop_serves_every_request
    (json_loads : string -> option pyval)
    (str : pyval -> exn + string)
    (s : state) (tcs : list ToolCall) (rs : list string) (l : loc) (h : list pyval) :
  ns s !! "tool_calls" = Some (OToolCalls tcs) ->
  Forall2 (served json_loads str (ns s)) tcs rs ->
  ns s !! "chat_history" = Some (OList l) ->
  heap s !! l = Some h ->
  fst (cell_tool_loop json_loads str s) = inr tt
  /\ history (snd (cell_tool_loop json_loads str s)) = Some (h ++ tool_messages tcs rs)
  /\ sent (snd (cell_tool_loop json_loads str s)) = sent s.
Proof.
  intros Htc Hall Hc Hh. rewrite (tool_loop_run json_loads str s tcs Htc).
  destruct (loop_serves json_loads str tcs rs s l h Hall Hc Hh)
    as (s' & Hrun & Hc' & Hh' & Hs').
  rewrite Hrun. simpl. repeat split; auto. apply history_inv. eauto.
Qed.

(** X2.  Whatever the requests and the namespace, the loop cell ends,
    returning or raising, with the tool messages of the first [k] requests
    appended to the history, in order, and nothing else: all of them when
    it returns, fewer when it raises.  A failure in the middle keeps the
    results before it and leaves the requests from it on unanswered; no
    request is sent by the loop. *)
Theorem loop_answers_a_prefix
    (json_loads : string -> option pyval)
    (str : pyval -> exn + string)
    (s : state) (tcs : list ToolCall) (l : loc) (h : list pyval) :
  ns s !! "tool_calls" = Some (OToolCalls tcs) ->
  ns s !! "chat_history" = Some (OList l) ->
  heap s !! l = Some h ->
  exists k ms,
    answered (take k tcs) ms
    /\ history (snd (cell_tool_loop json_loads str s)) = Some (h ++ ms)
    /\ sent (snd (cell_tool_loop json_loads str s)) = sent s
    /\ match fst (cell_tool_loop json_loads str s) with
       | inr _ => k = length tcs
       | inl _ => k < length tcs
       end.
Proof.
  intros Htc Hc Hh. rewrite (tool_loop_run json_loads str s tcs Htc).
  destruct (loop_answers_prefix json_loads str tcs s l h Hc Hh)
    as (k & ms & Hms & Hh' & Hc' & Hs' & Hk).
  exists k, ms. repeat split; auto. apply history_inv. eauto.
Qed.

(** ** A tool that raises *)

(** X3.  When the loop has processed the requests before [tc], the name
    of [tc] is bound to a callable and the arguments decode to a mapping,
    but the call raises [e]: the loop cell ends with [e] itself, nothing is
    appended for [tc] and nothing is sent. *)
Theorem tool_exception_propagates
    (json_loads : string -> option pyval)
    (str : pyval -> exn + string)
    (s s1 : state) (done rest : list ToolCall) (tc : ToolCall)
    (kw : kwargs) (f : kwargs -> exn + pyval) (e : exn) (h : list pyval) :
  ns s !! "tool_calls" = Some (OToolCalls (done ++ tc :: rest)) ->
  for_each (map OToolCall done) (loop_body json_loads str) s = (inr tt, s1) ->
  fresh_name (fn_name (tc_function tc)) bound_before_dispatch = true ->
  ns s1 !! fn_name (tc_function tc) = Some (OFun f) ->
  json_loads (fn_arguments (tc_function tc)) = Some (PDict kw) ->
  f kw = inl e ->
  history s1 = Some h ->
  fst (cell_tool_loop json_loads str s) = inl e
  /\ history (snd (cell_tool_loop json_loads str s)) = Some h
  /\ sent (snd (cell_tool_loop json_loads str s)) = sent s1.
Proof.
  intros Htc Hdone Hfresh Hf Hkw He Hh.
  rewrite (tool_loop_run json_loads str s _ Htc), map_app. simpl map.
  pose proof (body_callable_raises json_loads str tc s1 kw f e Hkw Hfresh Hf He) as Hfst.
  destruct (loop_body json_loads str (OToolCall tc) s1) as [r s2] eqn:Hb.
  simpl in Hfst. subst r.
  rewrite (for_each_raise _ _ _ _ _ _ _ _ Hdone Hb). simpl.
  apply history_inv in Hh as (l & Hc & Hh).
  destruct (body_raises json_loads str _ _ _ _ _ _ Hc Hh Hb) as (Hc2 & Hh2 & Hs2).
  repeat split; auto. apply history_inv. eauto.
Qed.

Lemma get_weather_kw_rejects (kw : kwargs) :
  NoDup (keys kw) ->
  (forall v, kw <> [("location", v)]) ->
  get_weather_kw kw = inl TypeError.
Proof.
  intros Hnd Hne. unfold get_weather_kw, bind_params.
  destruct kw as [|[k v] kw]; [reflexivity|].
  simpl. destruct (String.eqb_spec k "location") as [->|Hk]; [|reflexivity].
  destruct kw as [|[k2 v2] kw]; [now destruct (Hne v)|].
  simpl. destruct (String.eqb_spec k2 "location") as [->|Hk2]; [|reflexivity].
  simpl in Hnd. inversion Hnd as [|? ? Hin _]; subst.
  destruct Hin. now left.
Qed.

(** X4.  [get_weather] takes exactly the keyword [location].  A request
    for it whose arguments decode to any other mapping (no key, another
    key, further keys) makes the call raise [TypeError]: the loop cell ends
    with it and no tool message is appended for the request. *)
Theorem get_weather_wrong_arguments
    (json_loads : string -> option pyval)
    (str : pyval -> exn + string)
    (s s1 : state) (done rest : list ToolCall) (tc : ToolCall)
    (kw : kwargs) (h : list pyval) :
  ns s !! "tool_calls" = Some (OToolCalls (done ++ tc :: rest)) ->
  for_each (map OToolCall done) (loop_body json_loads str) s = (inr tt, s1) ->
  fn_name (tc_function tc) = "get_weather" ->
  ns s1 !! "get_weather" = Some get_weather_obj ->
  json_loads (fn_arguments (tc_function tc)) = Some (PDict kw) ->
  NoDup (keys kw) ->
  (forall v, kw <> [("location", v)]) ->
  history s1 = Some h ->
  fst (cell_tool_loop json_loads str s) = inl TypeError
  /\ history (snd (cell_tool_loop json_loads str s)) = Some h.
Proof.
  intros Htc Hdone Hname Hf Hkw Hnd Hne Hh.
  rewrite (tool_loop_run json_loads str s _ Htc), map_app. simpl map.
  assert (Hfst : fst (loop_body json_loads str (OToolCall tc) s1) = inl TypeError).
  { apply (body_callable_raises json_loads str tc s1 kw get_weather_kw); auto.
    - now rewrite Hname.
    - now rewrite Hname.
    - now apply get_weather_kw_rejects. }
  destruct (loop_body json_loads str (OToolCall tc) s1) as [r s2] eqn:Hb.
  simpl in Hfst. subst r.
  rewrite (for_each_raise _ _ _ _ _ _ _ _ Hdone Hb). simpl.
  apply history_inv in Hh as (l & Hc & Hh).
  destruct (body_raises json_loads str _ _ _ _ _ _ Hc Hh Hb) as (Hc2 & Hh2 & _).
  split; [reflexivity|]. apply history_inv. eauto.
Qed.

(** ** The requests sent *)

Lemma sent_messages_snoc s s' rq :
  sent s' = sent s ++ [rq] ->
  sent_messages s' = sent_messages s ++ [rq_messages rq].
Proof. unfold sent_messages. intros ->. now rewrite map_app. Qed.

Section Requests.

Variable json_loads : string -> option pyval.
Variable to_json : ChatCompletionMessage -> string.
Variable str : pyval -> exn + string.
Variable display_hook : nat -> gmap string object.

Lemma send_run c1 s n h0 t :
  ns s !! "messages" = Some (OList n) ->
  heap s !! n = Some h0 ->
  ns s !! "tools" = Some (OList t) ->
  exists s1,
    cell_send (inr c1) s = (inr tt, s1)
    /\ ns s1 !! "chat_history" = Some (OList n)
    /\ ns s1 !! "completion" = Some (OCompletion c1)
    /\ ns s1 !! "response_2" = ns s !! "response_2"
    /\ heap s1 = heap s
    /\ sent_messages s1 = sent_messages s ++ [h0].
Proof.
  intros Hm Hh Ht. unfold cell_send, create. run.
  rewrite Hm. proj. rewrite lookup_insert_eq. proj.
  rewrite lookup_insert_ne by discriminate. rewrite Ht. proj.
  eexists. split; [reflexivity|]. proj.
  repeat split; lookups; auto.
  unfold sent_messages. proj. rewrite map_app. simpl. now rewrite Hh.
Qed.

Lemma send_returns_sent a1 s s1 n h0 :
  ns s !! "messages" = Some (OList n) ->
  heap s !! n = Some h0 ->
  cell_send a1 s = (inr tt, s1) ->
  sent_messages s1 = sent_messages s ++ [h0].
Proof.
  intros Hm Hh. unfold cell_send, create. run.
  rewrite Hm. proj. rewrite lookup_insert_eq. proj.
  rewrite lookup_insert_ne by discriminate.
  destruct (ns s !! "tools") as [[| lt | | | |]|]; proj; try discriminate.
  destruct a1 as [e|c1]; proj; [discriminate|].
  intros [= <-]. unfold sent_messages. proj. rewrite map_app. simpl.
  now rewrite Hh.
Qed.

Lemma continue_returns_sent a3 s s' n h :
  ns s !! "chat_history" = Some (OList n) ->
  heap s !! n = Some h ->
  cell_continue json_loads to_json a3 s = (inr tt, s') ->
  exists c ch rest v,
    ns s !! "response_2" = Some (OCompletion c)
    /\ choices c = ch :: rest
    /\ json_loads (to_json (choice_message ch)) = Some v
    /\ sent_messages s' = sent_messages s ++ [h ++ [v; new_user_turn]].
Proof.
  intros Hc Hh. unfold cell_continue. intros H.
  apply bind_returns in H as ([] & s1 & H1 & H).
  destruct (append_answer_returns _ _ _ _ _ _ Hc H1)
    as (c & ch & rest & v & Hr & Hch & Hv & ->).
  exists c, ch, rest, v. repeat (split; [assumption|]).
  revert H. unfold create. run. rewrite Hc. proj. rewrite Hc. proj.
  destruct (ns s !! "tools") as [[| lt | | | |]|]; proj; try discriminate.
  destruct a3 as [e|c3]; proj; [discriminate|].
  rewrite lookup_insert_eq. destruct (choices c3); [discriminate|].
  intros [= <-]. unfold sent_messages. proj. rewrite map_app. simpl.
  rewrite !list_lookup_alter_eq, Hh. simpl. now rewrite <- app_assoc.
Qed.

Lemma round_trip_requests a1 a2 a3 s s' n h0 :
  ns s !! "messages" = Some (OList n) ->
  heap s !! n = Some h0 ->
  round_trip json_loads to_json str display_hook a1 a2 a3 s = (inr tt, s') ->
  exists v1 ms v2,
    heap s' !! n = Some (h0 ++ [v1] ++ ms ++ [v2; new_user_turn])
    /\ ns s' !! "chat_history" = Some (OList n)
    /\ ns s' !! "messages" = Some (OList n)
    /\ sent_messages s'
       = sent_messages s
         ++ [h0; h0 ++ [v1] ++ ms; h0 ++ [v1] ++ ms ++ [v2; new_user_turn]].
Proof.
  intros Hm Hh H.
  destruct (round_trip_returns json_loads to_json str display_hook _ _ _ _ _ _ _ Hm Hh H)
    as (c1 & ch1 & rest1 & v1 & tc & tcs & ms & c2 & ch2 & rest2 & v2
        & -> & Hch1 & Hv1 & Htcs & Hms & -> & Hch2 & Hv2 & Hc' & Hm' & Hh').
  exists v1, ms, v2. repeat (split; [assumption|]).
  unfold round_trip in H.
  apply bind_returns in H as ([] & s1 & H1 & H).
  pose proof (send_returns_sent _ _ _ _ _ Hm Hh H1) as Hsent1.
  destruct (send_returns _ _ _ _ Hm H1) as (c1' & [= <-] & Hc1 & Hm1 & Hcompl1 & Hheap1).
  apply bind_returns in H as ([] & s1' & Hp & H).
  apply print_returns in Hp as ->.
  apply bind_returns in H as ([] & s2 & H2 & H).
  destruct (record_call_returns json_loads to_json display_hook _ _ _ Hc1 H2)
    as (c & ch & rest & v & Hc & Hch & Hv & ->).
  rewrite Hcompl1 in Hc. injection Hc as <-.
  rewrite Hch1 in Hch. injection Hch as <- <-.
  rewrite Hv1 in Hv. injection Hv as <-.
  apply bind_returns in H as ([] & s3 & H3 & H).
  destruct (inspect_returns _ _ H3) as (c & ch & rest & tc' & tcs' & Hc & Hch & Htcs' & ->).
  cbn [ns set_ns set_heap] in Hc. rewrite pushed_lookup in Hc by reflexivity.
  rewrite Hcompl1 in Hc. injection Hc as <-.
  rewrite Hch1 in Hch. injection Hch as <- <-.
  rewrite Htcs in Htcs'. injection Htcs' as <- <-.
  apply bind_returns in H as ([] & s4 & H4 & H).
  match type of H4 with cell_tool_loop _ _ ?st = _ => set (s3 := st) in * end.
  assert (Hc3 : ns s3 !! "chat_history" = Some (OList n)).
  { subst s3. proj. now lookups. }
  assert (Hh3 : heap s3 !! n = Some (h0 ++ [v1])).
  { subst s3. proj. now rewrite list_lookup_alter_eq, Hheap1, Hh. }
  assert (Ht3 : ns s3 !! "tool_calls" = Some (OToolCalls (tc :: tcs))).
  { subst s3. proj. now lookups. }
  assert (Hs3 : sent_messages s3 = sent_messages s ++ [h0]).
  { subst s3. exact Hsent1. }
  clearbody s3.
  rewrite (tool_loop_run json_loads str s3 (tc :: tcs) Ht3) in H4.
  destruct (loop_returns json_loads str _ _ _ _ _ Hc3 Hh3 H4)
    as (ms' & Hms' & Hh4 & Hc4 & Hs4).
  apply bind_returns in H as ([] & s5 & H5 & H).
  apply show_returns in H5 as ->.
  match type of H with bind (cell_resend _) _ ?st = _ => set (s5 := st) in * end.
  assert (Hc5 : ns s5 !! "chat_history" = Some (OList n)).
  { subst s5. proj. now lookups. }
  assert (Hh5 : heap s5 !! n = Some ((h0 ++ [v1]) ++ ms')) by exact Hh4.
  assert (Hs5 : sent_messages s5 = sent_messages s4) by reflexivity.
  clearbody s5.
  apply bind_returns in H as ([] & s6 & H6 & H).
  destruct (resend_returns _ _ _ _ _ Hc5 Hh5 H6)
    as (c2' & rq & [= <-] & Hns6 & Hheap6 & Hsent6 & Hrq).
  apply bind_returns in H as ([] & s7 & H7 & H).
  apply print_final_returns in H7 as ->.
  assert (Hc6 : ns s6 !! "chat_history" = Some (OList n)).
  { rewrite Hns6. now lookups. }
  assert (Hh6 : heap s6 !! n = Some ((h0 ++ [v1]) ++ ms')).
  { now rewrite Hheap6. }
  destruct (continue_returns json_loads to_json _ _ _ _ _ Hc6 Hh6 H)
    as (_ & _ & _ & v2' & _ & _ & _ & Hfinal & _ & _).
  destruct (continue_returns_sent _ _ _ _ _ Hc6 Hh6 H)
    as (c & ch & rest & v & Hr2 & Hch & Hv & Hsent').
  rewrite Hns6, lookup_insert_eq in Hr2. injection Hr2 as <-.
  rewrite Hch2 in Hch. injection Hch as <- <-.
  rewrite Hv2 in Hv. injection Hv as <-.
  assert (Eq : ms' = ms).
  { rewrite Hh' in Hfinal. injection Hfinal as Hfinal.
    rewrite <- !app_assoc in Hfinal. apply app_inv_head in Hfinal.
    simpl in Hfinal. injection Hfinal as Hfinal.
    now apply app_inj_2 in Hfinal as [-> _]. }
  subst ms'.
  rewrite Hsent'. apply sent_messages_snoc in Hsent6. rewrite Hsent6, Hrq.
  assert (Hs46 : sent_messages s4 = sent_messages s3).
  { unfold sent_messages. now rewrite Hs4. }
  rewrite Hs5, Hs46, Hs3. rewrite <- !app_assoc. reflexivity.
Qed.

End Requests.

Section Stops.

Variable json_loads : string -> option pyval.
Variable to_json : ChatCompletionMessage -> string.
Variable str : pyval -> exn + string.
Variable display_hook : nat -> gmap string object.

Lemma inspect_no_calls s c ch rest :
  ns s !! "completion" = Some (OCompletion c) ->
  choices c = ch :: rest ->
  msg_tool_calls (choice_message ch) = None
  \/ msg_tool_calls (choice_message ch) = Some [] ->
  exists s',
    cell_inspect s
    = (inl (match msg_tool_calls (choice_message ch) with
            | None => TypeError
            | Some _ => IndexError
            end), s')
    /\ heap s' = heap s
    /\ sent s' = sent s
    /\ ns s' !! "chat_history" = ns s !! "chat_history"
    /\ ns s' !! "response_2" = ns s !! "response_2"
    /\ ns s' !! "tool_calls"
       = Some (match msg_tool_calls (choice_message ch) with
               | None => OData PNone
               | Some tcs => OToolCalls tcs
               end).
Proof.
  intros Hc Hch Hno. unfold cell_inspect. run.
  rewrite Hc, Hch. proj. rewrite lookup_insert_ne by discriminate.
  rewrite Hc, Hch. proj.
  destruct Hno as [-> | ->]; run; eexists; (split; [reflexivity|]); proj;
    repeat split; now lookups.
Qed.

Lemma continue_run a s n h c2 ch2 rest2 v2 t :
  ns s !! "chat_history" = Some (OList n) ->
  heap s !! n = Some h ->
  ns s !! "response_2" = Some (OCompletion c2) ->
  choices c2 = ch2 :: rest2 ->
  json_loads (to_json (choice_message ch2)) = Some v2 ->
  ns s !! "tools" = Some (OList t) ->
  exists s',
    cell_continue json_loads to_json a s
    = (match a with
       | inl e => inl e
       | inr c3 => match choices c3 with [] => inl IndexError | _ => inr tt end
       end, s')
    /\ ns s' !! "chat_history" = Some (OList n)
    /\ ns s' !! "response_2" = Some (OCompletion c2)
    /\ ns s' !! "tools" = Some (OList t)
    /\ heap s' !! n = Some (h ++ [v2; new_user_turn])
    /\ sent_messages s' = sent_messages s ++ [h ++ [v2; new_user_turn]].
Proof.
  intros Hc Hh Hr Hch Hv Ht. unfold cell_continue.
  rewrite (bind_inr _ _ _ _ _
             (append_answer_run json_loads to_json _ _ _ _ _ _ _ Hr Hch Hv Hc)).
  unfold create. run. rewrite Hc. proj. rewrite Hc. proj. rewrite Ht. proj.
  assert (Hheap : alter (fun h0 => h0 ++ [new_user_turn]) n
                    (alter (fun h0 => h0 ++ [v2]) n (heap s)) !! n
                  = Some (h ++ [v2; new_user_turn])).
  { rewrite !list_lookup_alter_eq, Hh. simpl. now rewrite <- app_assoc. }
  destruct a as [e|c3]; proj.
  - eexists. split; [reflexivity|]. proj. repeat split; auto.
    unfold sent_messages. proj. rewrite map_app. simpl. now rewrite Hheap.
  - rewrite lookup_insert_eq.
    destruct (choices c3); eexists; (split; [reflexivity|]); proj;
      repeat split; lookups; auto;
      unfold sent_messages; proj; rewrite map_app; simpl; now rewrite Hheap.
Qed.

End Stops.

(** ** An answer without tool calls *)

(** X5.  The round trip on a first answer that carries no tool call (the
    model answered in text: [tool_calls] is [None], or an empty list).
    The answer is recorded in the history, then the inspection cell raises
    on [tool_calls[0]], [TypeError] for [None] and [IndexError] for the
    empty list, and the round trip ends there: the only request sent is
    the first one, the later answers are never asked for, and
    [response_2] is not bound. *)
Theorem answer_without_tool_calls
    (json_loads : string -> option pyval) (to_json : ChatCompletionMessage -> string)
    (str : pyval -> exn + string) (display_hook : nat -> gmap string object)
    (a2 a3 : exn + ChatCompletion) (s : state) (n t : loc) (h0 : list pyval)
    (c1 : ChatCompletion) (ch : Choice) (rest : list Choice) (v1 : pyval) :
  ns s !! "messages" = Some (OList n) ->
  heap s !! n = Some h0 ->
  ns s !! "tools" = Some (OList t) ->
  choices c1 = ch :: rest ->
  msg_tool_calls (choice_message ch) = None
  \/ msg_tool_calls (choice_message ch) = Some [] ->
  json_loads (to_json (choice_message ch)) = Some v1 ->
  fst (round_trip json_loads to_json str display_hook (inr c1) a2 a3 s)
  = inl (match msg_tool_calls (choice_message ch) with
         | None => TypeError
         | Some _ => IndexError
         end)
  /\ history (snd (round_trip json_loads to_json str display_hook (inr c1) a2 a3 s))
     = Some (h0 ++ [v1])
  /\ sent_messages (snd (round_trip json_loads to_json str display_hook (inr c1) a2 a3 s))
     = sent_messages s ++ [h0]
  /\ ns (snd (round_trip json_loads to_json str display_hook (inr c1) a2 a3 s)) !! "response_2"
     = ns s !! "response_2".
Proof.
  intros Hm Hh Ht Hch Hno Hv. unfold round_trip.
  destruct (send_run c1 s n h0 t Hm Hh Ht)
    as (s1 & Hsend & Hc1 & Hcompl1 & Hr1 & Hheap1 & Hsent1).
  rewrite (bind_inr _ _ _ _ _ Hsend).
  assert (Hp : cell_print_completion s1 = (inr tt, s1)).
  { unfold cell_print_completion.
    now rewrite (bind_inr _ _ _ _ _ (first_choice_run _ _ _ _ _ Hcompl1 Hch)). }
  rewrite (bind_inr _ _ _ _ _ Hp).
  rewrite (bind_inr _ _ _ _ _
             (record_call_run json_loads to_json display_hook _ _ _ _ _ _
                Hcompl1 Hch Hv Hc1)).
  match goal with |- context [bind cell_inspect _ ?st] => set (s2 := st) end.
  assert (Hcompl2 : ns s2 !! "completion" = Some (OCompletion c1)).
  { subst s2. proj. now lookups. }
  destruct (inspect_no_calls s2 c1 ch rest Hcompl2 Hch Hno)
    as (s3 & Hinsp & Hheap3 & Hsent3 & Hc3 & Hr3 & _).
  rewrite (bind_inl _ _ _ _ _ Hinsp). simpl.
  split; [reflexivity|]. split; [|split].
  - apply history_inv. exists n. rewrite Hc3, Hheap3. subst s2. proj. lookups.
    split; [exact Hc1|]. now rewrite list_lookup_alter_eq, Hheap1, Hh.
  - unfold sent_messages in *. rewrite Hsent3. subst s2. proj. exact Hsent1.
  - rewrite Hr3. subst s2. proj. lookups. exact Hr1.
Qed.

(** ** What each request carries *)

(** X6.  When the round trip returns, it has sent exactly three requests,
    and each carries the whole conversation so far: the first the list
    [messages] as it was, the second that list with the recorded tool-call
    message and the tool messages, the third the history it ends with.
    The messages of each request are a prefix of those of the next. *)
Theorem requests_carry_the_conversation
    (json_loads : string -> option pyval) (to_json : ChatCompletionMessage -> string)
    (str : pyval -> exn + string) (display_hook : nat -> gmap string object)
    (a1 a2 a3 : exn + ChatCompletion) (s s' : state) (n : loc) (h0 : list pyval) :
  ns s !! "messages" = Some (OList n) ->
  heap s !! n = Some h0 ->
  round_trip json_loads to_json str display_hook a1 a2 a3 s = (inr tt, s') ->
  exists v1 ms v2,
    history s' = Some (h0 ++ [v1] ++ ms ++ [v2; new_user_turn])
    /\ sent_messages s'
       = sent_messages s
         ++ [h0; h0 ++ [v1] ++ ms; h0 ++ [v1] ++ ms ++ [v2; new_user_turn]].
Proof.
  intros Hm Hh H.
  destruct (round_trip_requests json_loads to_json str display_hook _ _ _ _ _ _ _ Hm Hh H)
    as (v1 & ms & v2 & Hh' & Hc' & _ & Hsent).
  exists v1, ms, v2. split; [|exact Hsent]. apply history_inv. eauto.
Qed.

(** ** Running a cell again *)

(** X7.  The last cell appends before it calls the model.  If that call
    raises [e], the cell raises [e] with the final answer and the new user
    turn already in the history; run again with an answer, the cell
    appends both a second time and sends the history with the
    duplicates. *)
Theorem retry_of_last_cell_duplicates
    (json_loads : string -> option pyval) (to_json : ChatCompletionMessage -> string)
    (e : exn) (c3 : ChatCompletion) (ch3 : Choice) (rest3 : list Choice)
    (s : state) (n t : loc) (h : list pyval)
    (c2 : ChatCompletion) (ch2 : Choice) (rest2 : list Choice) (v2 : pyval) :
  ns s !! "chat_history" = Some (OList n) ->
  heap s !! n = Some h ->
  ns s !! "response_2" = Some (OCompletion c2) ->
  choices c2 = ch2 :: rest2 ->
  json_loads (to_json (choice_message ch2)) = Some v2 ->
  ns s !! "tools" = Some (OList t) ->
  choices c3 = ch3 :: rest3 ->
  let failed := cell_continue json_loads to_json (inl e) s in
  let again := cell_continue json_loads to_json (inr c3) (snd failed) in
  fst failed = inl e
  /\ history (snd failed) = Some (h ++ [v2; new_user_turn])
  /\ fst again = inr tt
  /\ history (snd again) = Some (h ++ [v2; new_user_turn; v2; new_user_turn])
  /\ last (sent_messages (snd again))
     = Some (h ++ [v2; new_user_turn; v2; new_user_turn]).
Proof.
  intros Hc Hh Hr Hch Hv Ht Hch3 failed again. subst again failed.
  destruct (continue_run json_loads to_json (inl e) s n h c2 ch2 rest2 v2 t
              Hc Hh Hr Hch Hv Ht)
    as (s1 & Hrun1 & Hc1 & Hr1 & Ht1 & Hh1 & _).
  rewrite Hrun1. cbn [fst snd].
  destruct (continue_run json_loads to_json (inr c3) s1 n _ c2 ch2 rest2 v2 t
              Hc1 Hh1 Hr1 Hch Hv Ht1)
    as (s2 & Hrun2 & Hc2 & _ & _ & Hh2 & Hsent2).
  rewrite Hrun2, Hch3. cbn [fst snd]. rewrite <- app_assoc in Hh2, Hsent2.
  repeat split.
  - apply history_inv. eauto.
  - apply history_inv. eauto.
  - rewrite Hsent2. apply last_snoc.
Qed.

(** X8.  [chat_history = messages] does not start a new history.  After
    a round trip that returned, running step 1 again sends, as the
    messages of its request, the whole earlier conversation, the list
    [messages] having grown with it, and not the list the notebook
    created. *)
Theorem step_1_again_resends_everything
    (json_loads : string -> option pyval) (to_json : ChatCompletionMessage -> string)
    (str : pyval -> exn + string) (display_hook : nat -> gmap string object)
    (a1 a2 a3 a : exn + ChatCompletion) (s s' s'' : state) (n : loc)
    (h0 : list pyval) :
  ns s !! "messages" = Some (OList n) ->
  heap s !! n = Some h0 ->
  round_trip json_loads to_json str display_hook a1 a2 a3 s = (inr tt, s') ->
  cell_send a s' = (inr tt, s'') ->
  exists v1 ms v2,
    last (sent_messages s'') = Some (h0 ++ [v1] ++ ms ++ [v2; new_user_turn])
    /\ history s'' = Some (h0 ++ [v1] ++ ms ++ [v2; new_user_turn]).
Proof.
  intros Hm Hh H Hsend.
  destruct (round_trip_requests json_loads to_json str display_hook _ _ _ _ _ _ _ Hm Hh H)
    as (v1 & ms & v2 & Hh' & _ & Hm' & _).
  exists v1, ms, v2.
  rewrite (send_returns_sent _ _ _ _ _ Hm' Hh' Hsend).
  split; [apply last_snoc|].
  destruct (send_returns _ _ _ _ Hm' Hsend) as (_ & _ & Hc'' & _ & _ & Hheap).
  apply history_inv. exists n. rewrite Hheap. auto.
Qed.

(** ** The cells before the round trip *)

(** X9.  The cells from [def message] to [def get_weather], from any
    state of the kernel.  They fail only through the standard call: with
    the exception of the call, or with [IndexError] when the answer has no
    choice.  Otherwise they return with [messages] and [tools] bound to two
    new, distinct lists, holding the two initial messages and the one tool
    definition, with [message] and [get_weather] bound to the two
    functions, and with one request sent: the initial messages, without
    tools. *)
Theorem setup_outcome (a0 : exn + ChatCompletion) (s0 : state) :
  fst (setup a0 s0)
  = match a0 with
    | inl e => inl e
    | inr c => match choices c with [] => inl IndexError | _ => inr tt end
    end
  /\ (fst (setup a0 s0) = inr tt ->
      ns (snd (setup a0 s0)) !! "messages" = Some (OList (length (heap s0)))
      /\ ns (snd (setup a0 s0)) !! "tools" = Some (OList (S (length (heap s0))))
      /\ deref "messages" (snd (setup a0 s0)) = Some initial_messages
      /\ deref "tools" (snd (setup a0 s0)) = Some [get_weather_function_definition]
      /\ ns (snd (setup a0 s0)) !! "message" = Some message_obj
      /\ ns (snd (setup a0 s0)) !! "get_weather" = Some get_weather_obj
      /\ sent (snd (setup a0 s0))
         = sent s0 ++ [{| rq_model := "gpt-4o-mini";
                          rq_messages := initial_messages;
                          rq_tools := None |}]).
Proof.
  unfold setup, cell_def_message, cell_messages, cell_baseline, cell_def_tools,
    cell_def_get_weather, create, deref. run.
  rewrite lookup_insert_eq. proj.
  assert (Hm : (heap s0 ++ [initial_messages]) !! length (heap s0)
               = Some initial_messages) by now apply list_lookup_middle.
  destruct a0 as [e|c0]; proj; [split; [reflexivity|discriminate]|].
  rewrite lookup_insert_eq. proj.
  destruct (choices c0); proj; [split; [reflexivity|discriminate]|].
  split; [reflexivity|]. intros _.
  repeat split; lookups; auto.
  - now rewrite length_app, Nat.add_comm.
  - now apply lookup_app_l_Some.
  - now apply list_lookup_middle.
  - now rewrite Hm.
Qed.

(** ** The names of the round trip *)

Section Names.

Variable json_loads : string -> option pyval.
Variable to_json : ChatCompletionMessage -> string.
Variable str : pyval -> exn + string.
Variable display_hook : nat -> gmap string object.

Lemma body_returns_bindings tc s s' l h :
  ns s !! "chat_history" = Some (OList l) ->
  heap s !! l = Some h ->
  loop_body json_loads str (OToolCall tc) s = (inr tt, s') ->
  exists content o,
    heap s' !! l = Some (h ++ [tool_message (tc_id tc) content])
    /\ ns s' !! "function_call_results_message"
       = Some (OData (tool_message (tc_id tc) content))
    /\ ns s' !! "tool_call_id" = Some (OData (PStr (tc_id tc)))
    /\ ns s' !! "tool" = Some (OToolCall tc)
    /\ ns s' !! "function_call_results" = Some o
    /\ str_of str o s' = (inr tt, s').
Proof.
  intros Hc Hh. unfold loop_body. run.
  destruct (json_loads (fn_arguments (tc_function tc))) as [args|]; [|discriminate].
  destruct args as [| | | | | |kw]; run; fold_dispatch;
    try (destruct (_ !! fn_name (tc_function tc)); discriminate).
  destruct (namespace_at_dispatch _ _ _ !! _) as [[| |f| | |]|]; try discriminate.
  destruct (f kw) as [e|r]; [discriminate|].
  destruct (str r) as [e|content] eqn:Hs; [destruct r; discriminate|].
  intros Hrun. exists content. revert Hrun.
  pose proof (lookup_lt_Some _ _ _ Hh) as Hlt.
  destruct r; proj; rewrite ?lookup_insert_ne by discriminate; rewrite Hc;
    intros [= <-]; proj; eexists;
    (split; [rewrite list_lookup_alter_eq;
             first [now rewrite Hh
                   | erewrite lookup_app_l_Some by eassumption; reflexivity]|]);
    (split; [now lookups|]); (split; [now lookups|]); (split; [now lookups|]);
    (split; [now lookups|]);
    unfold str_of, contents; run; rewrite ?list_lookup_alter_ne by lia;
    rewrite ?list_lookup_middle by reflexivity; simpl; now rewrite Hs.
Qed.

(** After the iterations for [tcs] and then [tc], all returning. *)
Lemma loop_last_bindings tcs tc s s' l h :
  ns s !! "chat_history" = Some (OList l) ->
  heap s !! l = Some h ->
  for_each (map OToolCall (tcs ++ [tc])) (loop_body json_loads str) s = (inr tt, s') ->
  exists ms content o,
    answered tcs ms
    /\ heap s' !! l = Some (h ++ ms ++ [tool_message (tc_id tc) content])
    /\ ns s' !! "chat_history" = Some (OList l)
    /\ ns s' !! "function_call_results_message"
       = Some (OData (tool_message (tc_id tc) content))
    /\ ns s' !! "tool_call_id" = Some (OData (PStr (tc_id tc)))
    /\ ns s' !! "tool" = Some (OToolCall tc)
    /\ ns s' !! "function_call_results" = Some o
    /\ str_of str o s' = (inr tt, s').
Proof.
  intros Hc Hh. rewrite map_app, for_each_app.
  destruct (for_each (map OToolCall tcs) (loop_body json_loads str) s)
    as [[e|[]] s1] eqn:H1; [discriminate|].
  destruct (loop_returns json_loads str _ _ _ _ _ Hc Hh H1) as (ms & Hms & Hh1 & Hc1 & _).
  simpl. intros H. apply bind_returns in H as ([] & s2 & Hb & Hret).
  injection Hret as <-.
  destruct (body_returns_bindings _ _ _ _ _ Hc1 Hh1 Hb)
    as (content & o & Hh2 & B1 & B2 & B3 & B4 & B5).
  pose proof (grows_loop_body json_loads str l (OToolCall tc) s1) as (Hc2 & _).
  rewrite Hb in Hc2. simpl in Hc2. rewrite Hc1 in Hc2.
  exists ms, content, o. rewrite <- app_assoc in Hh2. repeat split; auto.
Qed.

(** The display cells after a loop that returned: [str] has returned on
    the last result once already. *)
Lemma show_run s l o :
  ns s !! "chat_history" = Some (OList l) ->
  ns s !! "function_call_results" = Some o ->
  str_of str o s = (inr tt, s) ->
  cell_show str display_hook s
  = (inr tt, set_ns (pushed (display_hook 23)) (set_ns (pushed (display_hook 22)) s)).
Proof.
  intros Hc Ho Hstr. unfold cell_show.
  assert (Hload : load "function_call_results" s = (inr o, s)).
  { unfold load, or_raise, ret. now rewrite Ho. }
  rewrite (bind_inr _ _ _ _ _ Hload), (bind_inr _ _ _ _ _ Hstr).
  unfold display, push. run. rewrite pushed_lookup by reflexivity. now rewrite Hc.
Qed.

End Names.

(** X10.  When the loop has returned, its variables describe the last
    request: [tool] is that request, [tool_call_id] its id, and
    [function_call_results_message] is the very message that ends the
    history.  The two cells that display [str(function_call_results)] and
    the history then return: [str] has returned on that result already.
    They leave the lists and the log of requests as they are, and every
    name that is not the kernel's own bound as it was. *)
Theorem loop_variables_after_the_loop
    (json_loads : string -> option pyval)
    (str : pyval -> exn + string) (display_hook : nat -> gmap string object)
    (s s' : state) (tcs : list ToolCall) (tc : ToolCall) (l : loc) (h : list pyval) :
  ns s !! "tool_calls" = Some (OToolCalls (tcs ++ [tc])) ->
  ns s !! "chat_history" = Some (OList l) ->
  heap s !! l = Some h ->
  cell_tool_loop json_loads str s = (inr tt, s') ->
  exists ms m,
    answered tcs ms
    /\ answers (tc_id tc) m = true
    /\ history s' = Some (h ++ ms ++ [m])
    /\ ns s' !! "function_call_results_message" = Some (OData m)
    /\ ns s' !! "tool_call_id" = Some (OData (PStr (tc_id tc)))
    /\ ns s' !! "tool" = Some (OToolCall tc)
    /\ fst (cell_show str display_hook s') = inr tt
    /\ heap (snd (cell_show str display_hook s')) = heap s'
    /\ sent (snd (cell_show str display_hook s')) = sent s'
    /\ forall x, kernel_name x = false ->
         ns (snd (cell_show str display_hook s')) !! x = ns s' !! x.
Proof.
  intros Htc Hc Hh. rewrite (tool_loop_run json_loads str s _ Htc). intros Hrun.
  destruct (loop_last_bindings json_loads str _ _ _ _ _ _ Hc Hh Hrun)
    as (ms & content & o & Hms & Hh' & Hc' & B1 & B2 & B3 & B4 & B5).
  exists ms, (tool_message (tc_id tc) content).
  split; [exact Hms|]. split; [rewrite answers_tool_message; apply String.eqb_refl|].
  split; [apply history_inv; eauto|]. repeat (split; [assumption|]).
  rewrite (show_run str display_hook s' l o Hc' B4 B5). proj.
  repeat split. intros x Hx. now rewrite !pushed_lookup by assumption.
Qed.

(** X11.  The round trip binds its own names only: the two it assigns
    for the history and the answers ([chat_history], [completion],
    [response_2], [response_3]) and the names of the inspection cell and of
    the loop.  The names that begin with an underscore are the kernel's,
    which binds some of them when it shows the value of a cell.  Every
    other name, [messages], [tools] and the two functions among them, is
    bound at the end, returning or raising, to what it was bound to
    before: no answer of the model and no tool result rebinds a
    function. *)
Theorem round_trip_binds_its_names_only
    (json_loads : string -> option pyval) (to_json : ChatCompletionMessage -> string)
    (str : pyval -> exn + string) (display_hook : nat -> gmap string object)
    (a1 a2 a3 : exn + ChatCompletion) (s : state) (x : string) :
  fresh_name x round_trip_names = true ->
  kernel_name x = false ->
  ns (snd (round_trip json_loads to_json str display_hook a1 a2 a3 s)) !! x = ns s !! x.
Proof.
  intros H Hk. unfold round_trip_names in H. simpl in H.
  apply fresh_name_cons in H as [N1 H]. apply fresh_name_cons in H as [N2 H].
  apply fresh_name_cons in H as [N3 H]. apply fresh_name_cons in H as [N4 H].
  change (fresh_name x scratch_names = true) in H.
  apply fresh_scratch in H as (? & ? & _ & ? & ? & ? & ? & ? & ?).
  change (keeps x s (snd (round_trip json_loads to_json str display_hook a1 a2 a3 s))).
  revert s.
  change (steps (keeps x) (round_trip json_loads to_json str display_hook a1 a2 a3)).
  unfold round_trip, cell_send, cell_print_completion, cell_record_call,
    append_answer, cell_inspect, cell_tool_loop, loop_body, cell_show, cell_resend,
    cell_print_final, cell_continue, append_answer, loads_or_raise.
  frame.
Qed.

(** ** The further properties on the recorded exchange *)

Lemma loop_serves_every_request_witness :
  fst (cell_tool_loop Json.loads Py.str
         (Recorded.before_loop_of [Recorded.call_1; Replay.message_call])) = inr tt
  /\ history (snd (cell_tool_loop Json.loads Py.str
                     (Recorded.before_loop_of [Recorded.call_1; Replay.message_call])))
     = Some ((initial_messages
              ++ [Recorded.recorded_calls [Recorded.call_1; Replay.message_call]])
             ++ [tool_message (tc_id Recorded.call_1) Recorded.weather;
                 tool_message (tc_id Replay.message_call) Replay.message_text]).
Proof.
  destruct (loop_serves_every_request Json.loads Py.str
              (Recorded.before_loop_of [Recorded.call_1; Replay.message_call])
              [Recorded.call_1; Replay.message_call]
              [Recorded.weather; Replay.message_text] 0
              (initial_messages
               ++ [Recorded.recorded_calls [Recorded.call_1; Replay.message_call]]))
    as (H1 & H2 & _);
    [vm_compute; reflexivity| |vm_compute; reflexivity|vm_compute; reflexivity|].
  - constructor; [|constructor; [|constructor]]; (split; [reflexivity|]).
    + exists get_weather_kw, [("location", PStr "Sydney")], (get_weather (PStr "Sydney")).
      repeat split; vm_compute; reflexivity.
    + exists message_kw, [("role", PStr "user"); ("content", PStr "hello")],
        (message (PStr "user") (PStr "hello")).
      repeat split; vm_compute; reflexivity.
  - split; [exact H1|exact H2].
Defined.

Lemma loop_answers_a_prefix_witness :
  exists k ms,
    answered (take k [Recorded.call_1; Recorded.unknown_call]) ms
    /\ history (snd (cell_tool_loop Json.loads Py.str
                       (Recorded.before_loop_of
                          [Recorded.call_1; Recorded.unknown_call])))
       = Some ((initial_messages
                ++ [Recorded.recorded_calls [Recorded.call_1; Recorded.unknown_call]])
               ++ ms)
    /\ k < 2.
Proof.
  destruct (loop_answers_a_prefix Json.loads Py.str
              (Recorded.before_loop_of [Recorded.call_1; Recorded.unknown_call])
              [Recorded.call_1; Recorded.unknown_call] 0
              (initial_messages
               ++ [Recorded.recorded_calls [Recorded.call_1; Recorded.unknown_call]]))
    as (k & ms & H1 & H2 & _ & H3); try (vm_compute; reflexivity).
  exists k, ms. repeat split; [exact H1|exact H2|exact H3].
Defined.

Lemma tool_exception_propagates_witness :
  fst (cell_tool_loop Json.loads Py.str
         (Recorded.before_loop_of [Recorded.call_1; Replay.bare_call]))
  = inl TypeError
  /\ history (snd (cell_tool_loop Json.loads Py.str
                     (Recorded.before_loop_of [Recorded.call_1; Replay.bare_call])))
     = Some (initial_messages
             ++ [Recorded.recorded_calls [Recorded.call_1; Replay.bare_call];
                 tool_message (tc_id Recorded.call_1) Recorded.weather]).
Proof.
  destruct (tool_exception_propagates Json.loads Py.str
              (Recorded.before_loop_of [Recorded.call_1; Replay.bare_call])
              (Recorded.after_first_call [Recorded.call_1; Replay.bare_call])
              [Recorded.call_1] [] Replay.bare_call [] get_weather_kw TypeError
              (initial_messages
               ++ [Recorded.recorded_calls [Recorded.call_1; Replay.bare_call];
                   tool_message (tc_id Recorded.call_1) Recorded.weather]))
    as (H1 & H2 & _); try (vm_compute; reflexivity).
  split; [exact H1|exact H2].
Defined.

Lemma get_weather_wrong_arguments_witness :
  fst (cell_tool_loop Json.loads Py.str
         (Recorded.before_loop_of [Recorded.call_1; Replay.bare_call]))
  = inl TypeError
  /\ history (snd (cell_tool_loop Json.loads Py.str
                     (Recorded.before_loop_of [Recorded.call_1; Replay.bare_call])))
     = history (Recorded.after_first_call [Recorded.call_1; Replay.bare_call]).
Proof.
  destruct (get_weather_wrong_arguments Json.loads Py.str
              (Recorded.before_loop_of [Recorded.call_1; Replay.bare_call])
              (Recorded.after_first_call [Recorded.call_1; Replay.bare_call])
              [Recorded.call_1] [] Replay.bare_call []
              (initial_messages
               ++ [Recorded.recorded_calls [Recorded.call_1; Replay.bare_call];
                   tool_message (tc_id Recorded.call_1) Recorded.weather]))
    as (H1 & H2); try (vm_compute; reflexivity).
  - constructor.
  - intros v. discriminate.
  - split; [exact H1|]. rewrite H2. vm_compute. reflexivity.
Defined.

Lemma answer_without_tool_calls_witness :
  fst (round_trip Json.loads Json.to_json Py.str Recorded.hook
         (inr Replay.text_completion)
         Recorded.answer_2 Recorded.answer_3 Recorded.after_setup)
  = inl TypeError
  /\ history (snd (round_trip Json.loads Json.to_json Py.str Recorded.hook
                     (inr Replay.text_completion)
                     Recorded.answer_2 Recorded.answer_3 Recorded.after_setup))
     = Some (initial_messages
             ++ [PDict [("content", PStr "It is sunny."); ("refusal", PNone);
                        ("role", PStr "assistant")]]).
Proof.
  destruct (answer_without_tool_calls Json.loads Json.to_json Py.str Recorded.hook
              Recorded.answer_2 Recorded.answer_3 Recorded.after_setup 0 1
              initial_messages Replay.text_completion
              (Recorded.text_choice "It is sunny.") []
              (PDict [("content", PStr "It is sunny."); ("refusal", PNone);
                      ("role", PStr "assistant")]))
    as (H1 & H2 & _); try (vm_compute; reflexivity).
  - left. reflexivity.
  - split; [exact H1|exact H2].
Defined.

Lemma requests_carry_the_conversation_witness :
  exists v1 ms v2,
    history Replay.after_round_trip
    = Some (initial_messages ++ [v1] ++ ms ++ [v2; new_user_turn])
    /\ sent_messages Replay.after_round_trip
       = sent_messages Recorded.after_setup
         ++ [initial_messages; initial_messages ++ [v1] ++ ms;
             initial_messages ++ [v1] ++ ms ++ [v2; new_user_turn]].
Proof.
  apply (requests_carry_the_conversation Json.loads Json.to_json Py.str Recorded.hook
           Recorded.answer_1 Recorded.answer_2 Recorded.answer_3
           Recorded.after_setup Replay.after_round_trip 0 initial_messages);
    vm_compute; reflexivity.
Defined.

Lemma retry_of_last_cell_duplicates_witness :
  history
    (snd (cell_continue Json.loads Json.to_json Recorded.answer_3
            (snd (cell_continue Json.loads Json.to_json (inl APIError)
                    Replay.before_continue))))
  = Some ((initial_messages
           ++ [Recorded.recorded_calls [Recorded.call_1];
               tool_message (tc_id Recorded.call_1) Recorded.weather])
          ++ [PDict [("content",
                      PStr "The weather in Sydney today is sunny with a temperature of 25°C.");
                     ("refusal", PNone); ("role", PStr "assistant")];
              new_user_turn;
              PDict [("content",
                      PStr "The weather in Sydney today is sunny with a temperature of 25°C.");
                     ("refusal", PNone); ("role", PStr "assistant")];
              new_user_turn]).
Proof.
  destruct (retry_of_last_cell_duplicates Json.loads Json.to_json APIError
              {| choices :=
                   [Recorded.text_choice "الطقس في سيدني اليوم مشمس ودرجة الحرارة 25°C."] |}
              (Recorded.text_choice "الطقس في سيدني اليوم مشمس ودرجة الحرارة 25°C.") []
              Replay.before_continue 0 1
              (initial_messages
               ++ [Recorded.recorded_calls [Recorded.call_1];
                   tool_message (tc_id Recorded.call_1) Recorded.weather])
              {| choices :=
                   [Recorded.text_choice
                      "The weather in Sydney today is sunny with a temperature of 25°C."] |}
              (Recorded.text_choice
                 "The weather in Sydney today is sunny with a temperature of 25°C.") []
              (PDict [("content",
                       PStr "The weather in Sydney today is sunny with a temperature of 25°C.");
                      ("refusal", PNone); ("role", PStr "assistant")]))
    as (_ & _ & _ & H & _); [vm_compute; reflexivity ..|].
  exact H.
Defined.

Lemma step_1_again_resends_everything_witness :
  exists v1 ms v2,
    last (sent_messages (snd (cell_send Recorded.answer_1 Replay.after_round_trip)))
    = Some (initial_messages ++ [v1] ++ ms ++ [v2; new_user_turn])
    /\ history (snd (cell_send Recorded.answer_1 Replay.after_round_trip))
       = Some (initial_messages ++ [v1] ++ ms ++ [v2; new_user_turn]).
Proof.
  apply (step_1_again_resends_everything Json.loads Json.to_json Py.str Recorded.hook
           Recorded.answer_1 Recorded.answer_2 Recorded.answer_3 Recorded.answer_1
           Recorded.after_setup Replay.after_round_trip
           (snd (cell_send Recorded.answer_1 Replay.after_round_trip))
           0 initial_messages);
    vm_compute; reflexivity.
Defined.

Lemma loop_variables_after_the_loop_witness :
  exists ms m,
    answered [Recorded.call_1] ms
    /\ answers (tc_id Replay.message_call) m = true
    /\ history Replay.after_loop
       = Some ((initial_messages
                ++ [Recorded.recorded_calls [Recorded.call_1; Replay.message_call]])
               ++ ms ++ [m])
    /\ ns Replay.after_loop !! "function_call_results_message" = Some (OData m)
    /\ ns Replay.after_loop !! "tool_call_id"
       = Some (OData (PStr (tc_id Replay.message_call)))
    /\ ns Replay.after_loop !! "tool" = Some (OToolCall Replay.message_call)
    /\ fst (cell_show Py.str Recorded.hook Replay.after_loop) = inr tt
    /\ heap (snd (cell_show Py.str Recorded.hook Replay.after_loop))
       = heap Replay.after_loop.
Proof.
  destruct (loop_variables_after_the_loop Json.loads Py.str Recorded.hook
              (Recorded.before_loop_of [Recorded.call_1; Replay.message_call])
              Replay.after_loop [Recorded.call_1] Replay.message_call 0
              (initial_messages
               ++ [Recorded.recorded_calls [Recorded.call_1; Replay.message_call]]))
    as (ms & m & H1 & H2 & H3 & H4 & H5 & H6 & H7 & H8 & _);
    [vm_compute; reflexivity ..|].
  exists ms, m. repeat (split; [assumption|]). assumption.
Defined.

Lemma round_trip_binds_its_names_only_witness :
  ns Replay.after_round_trip !! "get_weather" = ns Recorded.after_setup !! "get_weather".
Proof.
  apply (round_trip_binds_its_names_only Json.loads Json.to_json Py.str Recorded.hook
           Recorded.answer_1 Recorded.answer_2 Recorded.answer_3
           Recorded.after_setup "get_weather"); reflexivity.
Defined.
